(** * autonomous.py: vehicle kinematics and track adherence

    A shallow embedding of [AutonomousCar] (src/autonomous.py): the control
    callbacks ([accelerate], [stop_accelerate], [steer], [stop_turn],
    [toggle_mode]), the per-frame task [update_car] with
    [run_autonomous_logic], [is_car_on_track] and [check_boundaries].

    Numbers.  Python's [float] is IEEE-754 binary64; it is modelled by the
    standard library's [spec_float] at precision 53 and maximal exponent
    1024, with its executable operations, so NaN, infinities, signed zeros
    and rounding are those of the program.  The integer literals of the
    program (0, 1, -1, 10, 15, 20, -10, 50, -50) are exactly representable,
    and Python coerces an [int] to that double in mixed arithmetic and
    comparison, so they are embedded by [of_int].

    Effects.  Methods are actions of a small state-and-exception monad over
    the fields of the application object; an uncaught exception ends the
    frame loop, so a raising action yields no state.

    The car's node.  Panda3D keeps the position and the heading of a node
    in single precision and refuses a NaN: a setter raises
    [AssertionError] on a NaN and otherwise stores its argument rounded to
    binary32 ([to_f32]), which the getters hand back as a double.

    Outside the model: the rest of the scene graph and the camera (render
    side only), and the implementations of [math.sin] and [math.cos],
    which are taken as parameters of the development. *)

From Stdlib Require Import ZArith Bool List String Lia.
From Stdlib Require Import SpecFloat.
Import ListNotations.

(** ** Binary64 numbers *)

Module Float.

Definition float : Type := spec_float.

Definition prec : Z := 53.
Definition emax : Z := 1024.

Definition add : float -> float -> float := SFadd prec emax.
Definition mul : float -> float -> float := SFmul prec emax.
Definition div : float -> float -> float := SFdiv prec emax.
Definition neg : float -> float := SFopp.
Definition ltb : float -> float -> bool := SFltb.
Definition leb : float -> float -> bool := SFleb.
Definition eqb : float -> float -> bool := SFeqb.

(** [float(n)] for a Python integer: round to nearest even, exact for
    [|n| < 2^53]. *)
Definition of_int (n : Z) : float := binary_normalize prec emax n 0 false.

(** The C conversion [(float) x] read back as a double: round to nearest
    even at precision 24 and maximal exponent 128, overflow to an
    infinity, underflow through the subnormals to a zero; the result is
    written again with the mantissa of a double. *)
Definition prec32 : Z := 24.
Definition emax32 : Z := 128.

Definition to_f32 (x : float) : float :=
  match x with
  | S754_finite s m e =>
    match binary_round prec32 emax32 s m e with
    | S754_finite s' m' e' => binary_round prec emax s' m' e'
    | y => y
    end
  | _ => x
  end.

Definition is_nan (x : float) : bool :=
  match x with S754_nan => true | _ => false end.

Definition is_finite (x : float) : bool :=
  match x with S754_zero _ | S754_finite _ _ _ => true | _ => false end.

(** The integer part of a finite number, rounding toward zero: the
    magnitude [m * 2^e] is shifted (to the right when [e < 0]), then the
    sign is applied. *)
Definition trunc (s : bool) (m : positive) (e : Z) : Z :=
  cond_Zopp s (Z.shiftl (Zpos m) e).

(** The greatest integer below a finite number: the signed mantissa is
    shifted, and a right shift of a negative integer rounds down. *)
Definition floor (x : float) : option Z :=
  match x with
  | S754_zero _ => Some 0%Z
  | S754_finite s m e => Some (Z.shiftl (cond_Zopp s (Zpos m)) e)
  | _ => None
  end.

End Float.

Import Float.

Declare Scope py_scope.
Delimit Scope py_scope with py.
Bind Scope py_scope with float.
Notation "x + y" := (add x y) : py_scope.
Notation "x * y" := (mul x y) : py_scope.
Notation "x / y" := (div x y) : py_scope.
Notation "- x" := (neg x) : py_scope.
Notation "x <? y" := (ltb x y) : py_scope.
Notation "x <=? y" := (leb x y) : py_scope.
Notation "x =? y" := (eqb x y) : py_scope.
Notation "x >? y" := (ltb y x) (at level 70, only parsing) : py_scope.
Notation "x !=? y" := (negb (eqb x y)) (at level 70) : py_scope.
Notation "'int:' n" := (of_int n%Z) (at level 9, n at level 9) : py_scope.

(** ** Python builtins *)

Inductive exn : Type := ValueError | OverflowError | AssertionError.

(** The result of a call that may raise. *)
Inductive pyval (A : Type) : Type :=
  | Val (a : A)
  | Exc (e : exn).
Arguments Val {A} a.
Arguments Exc {A} e.

(** [max(a, b)]: the first argument is kept unless the second compares
    greater. *)
Definition py_max (a b : float) : float := if (b >? a)%py then b else a.

(** [min(a, b)]: the first argument is kept unless the second compares
    less. *)
Definition py_min (a b : float) : float := if (b <? a)%py then b else a.

(** [int(x)] on a float: truncation toward zero; [ValueError] on NaN and
    [OverflowError] on an infinity. *)
Definition py_int (x : float) : pyval Z :=
  match x with
  | S754_nan => Exc ValueError
  | S754_infinity _ => Exc OverflowError
  | S754_zero _ => Val 0%Z
  | S754_finite s m e => Val (trunc s m e)
  end.

(** [a / b] on integers: true division.  For operands below [2^53] in
    magnitude (image sizes are C ints) it is the quotient of the two
    conversions. *)
Definition int_truediv (a b : Z) : float := (of_int a / of_int b)%py.

(** [math.radians(x)] is [x * (pi / 180)], with the constant
    [0x1.1df46a2529d39p-6]. *)
Definition deg_to_rad : float := S754_finite false 5030569068109113 (-58).
Definition radians (x : float) : float := (x * deg_to_rad)%py.

(** ** The application object *)

(** The ground texture as a [PNMImage]: its size and, per texel, the
    numbers its channel accessors return. *)
Record PNMImage : Type := {
  getXSize : Z;
  getYSize : Z;
  getRed : Z -> Z -> float;
  getGreen : Z -> Z -> float;
  getBlue : Z -> Z -> float
}.

(** The car's node: position and heading as the node holds them. *)
Record NodePath : Type := {
  pos_x : float;
  pos_y : float;
  pos_z : float;
  hdg : float
}.

Record App : Type := {
  car : NodePath;
  map_texture : option PNMImage;
  speed : float;
  steering_angle : float;
  manual_mode : bool;
  autonomous_steering_correction : float;
  stdout : list string
}.

Definition max_forward_speed : float := (int: 20)%py.
Definition max_reverse_speed : float := (int: (-10))%py.
(** The literal [0.2], that is [0x1.999999999999ap-3]. *)
Definition acceleration_rate : float := S754_finite false 7205759403792794 (-55).
Definition autonomous_speed : float := (int: 10)%py.

Definition with_car (c : NodePath) (a : App) : App :=
  {| car := c; map_texture := map_texture a; speed := speed a;
     steering_angle := steering_angle a; manual_mode := manual_mode a;
     autonomous_steering_correction := autonomous_steering_correction a;
     stdout := stdout a |}.

Definition with_speed (v : float) (a : App) : App :=
  {| car := car a; map_texture := map_texture a; speed := v;
     steering_angle := steering_angle a; manual_mode := manual_mode a;
     autonomous_steering_correction := autonomous_steering_correction a;
     stdout := stdout a |}.

Definition with_steering_angle (v : float) (a : App) : App :=
  {| car := car a; map_texture := map_texture a; speed := speed a;
     steering_angle := v; manual_mode := manual_mode a;
     autonomous_steering_correction := autonomous_steering_correction a;
     stdout := stdout a |}.

Definition with_manual_mode (b : bool) (a : App) : App :=
  {| car := car a; map_texture := map_texture a; speed := speed a;
     steering_angle := steering_angle a; manual_mode := b;
     autonomous_steering_correction := autonomous_steering_correction a;
     stdout := stdout a |}.

Definition with_correction (v : float) (a : App) : App :=
  {| car := car a; map_texture := map_texture a; speed := speed a;
     steering_angle := steering_angle a; manual_mode := manual_mode a;
     autonomous_steering_correction := v;
     stdout := stdout a |}.

Definition with_stdout (l : list string) (a : App) : App :=
  {| car := car a; map_texture := map_texture a; speed := speed a;
     steering_angle := steering_angle a; manual_mode := manual_mode a;
     autonomous_steering_correction := autonomous_steering_correction a;
     stdout := l |}.

(** ** The monad of methods *)

Inductive outcome (A : Type) : Type :=
  | Returns (a : A) (s : App)
  | Raises (e : exn).
Arguments Returns {A} a s.
Arguments Raises {A} e.

Definition M (A : Type) : Type := App -> outcome A.

Definition ret {A} (a : A) : M A := fun s => Returns a s.

Definition bind {A B} (m : M A) (k : A -> M B) : M B :=
  fun s => match m s with
           | Returns a s' => k a s'
           | Raises e => Raises e
           end.

Definition gets {A} (f : App -> A) : M A := fun s => Returns (f s) s.
Definition modify (f : App -> App) : M unit := fun s => Returns tt (f s).

Definition raise {A} (e : exn) : M A := fun _ => Raises e.

(** A builtin call: its value, or its exception propagated. *)
Definition call {A} (r : pyval A) : M A :=
  fun s => match r with Val a => Returns a s | Exc e => Raises e end.

Declare Scope monad_scope.
Delimit Scope monad_scope with monad.
Notation "x <- m ;; k" := (bind m (fun x => k))
  (at level 61, m at next level, right associativity) : monad_scope.
Notation "m ;; k" := (bind m (fun _ => k))
  (at level 61, right associativity) : monad_scope.
Local Open Scope monad_scope.

Definition print (line : string) : M unit :=
  modify (fun s => with_stdout (stdout s ++ [line]) s).

(** Accessors of the car's node. *)
Definition getX : M float := gets (fun s => pos_x (car s)).
Definition getY : M float := gets (fun s => pos_y (car s)).
Definition getZ : M float := gets (fun s => pos_z (car s)).
Definition getH : M float := gets (fun s => hdg (car s)).
Definition getPos : M NodePath := gets car.

(** The setters of the node.  Each refuses a NaN and stores single
    precision.  [setX] and [setY] rebuild the position from the components
    the node holds, which are already in single precision and pass through
    as they are. *)
Definition setH (h : float) : M unit :=
  if is_nan h then raise AssertionError
  else
    modify (fun s => with_car {| pos_x := pos_x (car s); pos_y := pos_y (car s);
                                 pos_z := pos_z (car s); hdg := to_f32 h |} s).
Definition setPos (x y z : float) : M unit :=
  if is_nan x || is_nan y || is_nan z then raise AssertionError
  else
    modify (fun s => with_car {| pos_x := to_f32 x; pos_y := to_f32 y;
                                 pos_z := to_f32 z; hdg := hdg (car s) |} s).
Definition setX (x : float) : M unit :=
  if is_nan x then raise AssertionError
  else
    modify (fun s => with_car {| pos_x := to_f32 x; pos_y := pos_y (car s);
                                 pos_z := pos_z (car s); hdg := hdg (car s) |} s).
Definition setY (y : float) : M unit :=
  if is_nan y then raise AssertionError
  else
    modify (fun s => with_car {| pos_x := pos_x (car s); pos_y := to_f32 y;
                                 pos_z := pos_z (car s); hdg := hdg (car s) |} s).

(** ** The methods of [AutonomousCar] *)

Section AutonomousCar.

Local Open Scope string_scope.
Local Open Scope py_scope.

(** [math.sin] and [math.cos]: a value, or the exception they raise. *)
Variable sin cos : float -> pyval float.

(** The state left by [__init__]; [tex] is what [load_map_texture] stored
    (nothing when the plane has no texture).  The car starts at
    [(-3, 8, 0.05)] with heading 90; the node holds the height as the
    single-precision [0x1.99999ap-5]. *)
Definition init (tex : option PNMImage) : App :=
  {| car := {| pos_x := int: (-3); pos_y := int: 8;
               pos_z := S754_finite false 7205759511166976 (-57);
               hdg := int: 90 |};
     map_texture := tex;
     speed := int: 0;
     steering_angle := int: 0;
     manual_mode := true;
     autonomous_steering_correction := int: 0;
     stdout := [] |}.

Definition accelerate (increment : float) : M unit :=
  manual <- gets manual_mode ;;
  if manual then
    v <- gets speed ;;
    modify (with_speed (v + increment * acceleration_rate)) ;;
    v <- gets speed ;;
    modify (with_speed (py_max max_reverse_speed (py_min v max_forward_speed)))
  else ret tt.

Definition stop_accelerate : M unit := modify (with_speed (int: 0)).

Definition steer (direction : float) : M unit :=
  manual <- gets manual_mode ;;
  v <- gets speed ;;
  if manual && (v !=? int: 0) then
    modify (with_steering_angle (direction * int: 15))
  else ret tt.

Definition stop_turn : M unit := modify (with_steering_angle (int: 0)).

Definition toggle_mode : M unit :=
  manual <- gets manual_mode ;;
  modify (with_manual_mode (negb manual)) ;;
  manual <- gets manual_mode ;;
  print (if manual then "Switched to Manual Mode"
         else "Switched to Autonomous Mode") ;;
  manual <- gets manual_mode ;;
  if negb manual then
    modify (with_speed (int: 0)) ;;
    modify (with_steering_angle (int: 0)) ;;
    modify (with_correction (int: 0))
  else ret tt.

Definition run_autonomous_logic (dt : float) : M unit :=
  h <- getH ;;
  c <- gets autonomous_steering_correction ;;
  let heading := (h + c)%py in
  setH heading ;;
  sn <- call (sin (radians heading)) ;;
  let dx := (- sn * autonomous_speed * dt)%py in
  cs <- call (cos (radians heading)) ;;
  let dy := (cs * autonomous_speed * dt)%py in
  x <- getX ;; y <- getY ;; z <- getZ ;;
  setPos (x + dx) (y + dy) z.

Definition is_car_on_track : M bool :=
  tex <- gets map_texture ;;
  match tex with
  | None => ret true
  | Some img =>
    car_pos <- getPos ;;
    let car_x := pos_x car_pos in
    let car_y := pos_y car_pos in
    u <- call (py_int ((car_x + int: 10) * int_truediv (getXSize img) 20)) ;;
    v <- call (py_int ((car_y + int: 10) * int_truediv (getYSize img) 20)) ;;
    if ((0 <=? u) && (u <? getXSize img) && ((0 <=? v) && (v <? getYSize img)))%Z
    then
      let r := getRed img u v in
      let g := getGreen img u v in
      let b := getBlue img u v in
      ret ((r <? int: 10) && (g <? int: 10) && (b <? int: 10))%py
    else ret false
  end.

Definition check_boundaries : M unit :=
  car_pos <- getPos ;;
  (if (pos_x car_pos <? int: (-50))%py then setX (int: (-50)) else ret tt) ;;
  (if (pos_x car_pos >? int: 50)%py then setX (int: 50) else ret tt) ;;
  (if (pos_y car_pos <? int: (-50))%py then setY (int: (-50)) else ret tt) ;;
  (if (pos_y car_pos >? int: 50)%py then setY (int: 50) else ret tt).

(** Lines 112-119 of [update_car]: the integration of the frame, inline
    in manual mode and delegated in autonomous mode. *)
Definition update_car_move (dt : float) : M unit :=
  manual <- gets manual_mode ;;
  if manual then
    h <- getH ;;
    a <- gets steering_angle ;;
    let heading := (h + a * dt)%py in
    setH heading ;;
    sn <- call (sin (radians heading)) ;;
    v <- gets speed ;;
    let dx := (- sn * v * dt)%py in
    cs <- call (cos (radians heading)) ;;
    v <- gets speed ;;
    let dy := (cs * v * dt)%py in
    x <- getX ;; y <- getY ;; z <- getZ ;;
    setPos (x + dx) (y + dy) z
  else run_autonomous_logic dt.

(** Lines 121-124 of [update_car]: the track check and the correction. *)
Definition update_car_track : M unit :=
  on_track <- is_car_on_track ;;
  if negb on_track then
    print "Car off the track! Correcting." ;;
    x <- getX ;;
    modify (with_correction (if (x <? int: 0)%py then int: 1 else int: (-1)))
  else ret tt.

(** The frame task; [dt] is [globalClock.getDt()]. *)
Definition update_car (dt : float) : M unit :=
  update_car_move dt ;;
  update_car_track ;;
  check_boundaries.

(** The callbacks bound by [setup_controls], and the frame task. *)
Inductive command : Type :=
  | Accelerate (increment : float)
  | StopAccelerate
  | Steer (direction : float)
  | StopTurn
  | ToggleMode
  | Tick (dt : float).

Definition exec (c : command) : M unit :=
  match c with
  | Accelerate increment => accelerate increment
  | StopAccelerate => stop_accelerate
  | Steer direction => steer direction
  | StopTurn => stop_turn
  | ToggleMode => toggle_mode
  | Tick dt => update_car dt
  end.

Fixpoint run (cs : list command) : M unit :=
  match cs with
  | [] => ret tt
  | c :: cs' => exec c ;; run cs'
  end.

End AutonomousCar.

(** ** Notions used by the statements *)

Local Open Scope py_scope.

(** [clamp(v, lo, hi)] as line 84 composes it: [max(lo, min(v, hi))]. *)
Definition clamp (v lo hi : float) : float := py_max lo (py_min v hi).

Definition speed_in_range (s : App) : Prop :=
  (max_reverse_speed <=? speed s) = true /\
  (speed s <=? max_forward_speed) = true.

(** What [check_boundaries] leaves in a coordinate that was [c]: both tests
    read the position taken on entry, the second assignment overrides the
    first. *)
Definition clamp_coord (c : float) : float :=
  let c1 := if c <? int: (-50) then int: (-50) else c in
  if c >? int: 50 then int: 50 else c1.

(** The texture coordinate of lines 155-156 for a world coordinate [c] and
    a texture size [n]. *)
Definition texel (c : float) (n : Z) : pyval Z :=
  py_int ((c + int: 10) * int_truediv n 20).

(** The texture coordinate as the specification words it:
    [floor((c + 10) * n / 20)]. *)
Definition spec_texel (c : float) (n : Z) : option Z :=
  floor ((c + int: 10) * of_int n / int: 20).

Definition in_texture (img : PNMImage) (u v : Z) : bool :=
  ((0 <=? u) && (u <? getXSize img) && ((0 <=? v) && (v <? getYSize img)))%Z.

(** The near-black test of line 162 at a texel. *)
Definition near_black (img : PNMImage) (u v : Z) : bool :=
  (getRed img u v <? int: 10) && (getGreen img u v <? int: 10)
  && (getBlue img u v <? int: 10).

(** The state after the off-track branch of [update_car]. *)
Definition corrected (s : App) : App :=
  with_correction
    (if pos_x (car s) <? int: 0 then int: 1 else int: (-1))
    (with_stdout (stdout s ++ ["Car off the track! Correcting."%string]) s).

(** The state after [check_boundaries]. *)
Definition bounded (s : App) : App :=
  with_car {| pos_x := clamp_coord (pos_x (car s));
              pos_y := clamp_coord (pos_y (car s));
              pos_z := pos_z (car s); hdg := hdg (car s) |} s.

(** The state after the integration of a frame that computed the heading
    [h] at the speed of travel [v], with [sn], [cs] the sine and cosine of
    [radians h]: the node holds the new heading and position in single
    precision. *)
Definition moved (h v sn cs dt : float) (s : App) : App :=
  with_car {| pos_x := to_f32 (pos_x (car s) + - sn * v * dt);
              pos_y := to_f32 (pos_y (car s) + cs * v * dt);
              pos_z := to_f32 (pos_z (car s)); hdg := to_f32 h |} s.

(** The outcome of the integration of a frame for the heading [h] and the
    speed of travel [v], in the order the code runs it: the node takes
    the heading, the sine and the cosine are called, the node takes the
    position. *)
Definition integrated (sin cos : float -> pyval float)
    (h v dt : float) (s : App) : outcome unit :=
  if is_nan h then Raises AssertionError
  else
    match sin (radians h) with
    | Exc e => Raises e
    | Val sn =>
      match cos (radians h) with
      | Exc e => Raises e
      | Val cs =>
        if is_nan (pos_x (car s) + - sn * v * dt)
           || is_nan (pos_y (car s) + cs * v * dt)
           || is_nan (pos_z (car s))
        then Raises AssertionError
        else Returns tt (moved h v sn cs dt s)
      end
    end.

(** ** Sample inputs

    A texture of one colour, and polynomial stand-ins for the sine and the
    cosine that share with them the values at zero and raise on an
    infinity as [math.sin] and [math.cos] do. *)

Definition plain_image (w h : Z) (r g b : float) : PNMImage :=
  {| getXSize := w; getYSize := h;
     getRed := fun _ _ => r; getGreen := fun _ _ => g; getBlue := fun _ _ => b |}.

Definition black_image (w h : Z) : PNMImage :=
  plain_image w h (int: 0) (int: 0) (int: 0).

Definition white_image (w h : Z) : PNMImage :=
  plain_image w h (int: 255) (int: 255) (int: 255).

Definition sin_poly (x : float) : pyval float :=
  match x with
  | S754_infinity _ => Exc ValueError
  | _ => Val (x + - (x * x * x / int: 6))
  end.

Definition cos_poly (x : float) : pyval float :=
  match x with
  | S754_infinity _ => Exc ValueError
  | _ => Val (int: 1 + - (x * x / int: 2))
  end.

(** A car at [(x, y)] with heading [h], speed [v], steering angle and
    correction zero, at the height of the initial state. *)
Definition car_at (tex : option PNMImage) (manual : bool) (x y h v : float) : App :=
  {| car := {| pos_x := x; pos_y := y;
               pos_z := S754_finite false 7205759511166976 (-57); hdg := h |};
     map_texture := tex;
     speed := v;
     steering_angle := int: 0;
     manual_mode := manual;
     autonomous_steering_correction := int: 0;
     stdout := [] |}.

(** Single-precision values a node comes to hold: [8.2f], which is
    8.199999809265137, and [0.24f], which is 0.23999999463558197. *)
Definition y_8_2f : float := S754_finite false 4616189510680576 (-49).
Definition h_0_24f : float := S754_finite false 8646911091277824 (-55).

(** [-10.5], one half below the left edge of the track square. *)
Definition minus_ten_and_half : float := S754_finite true 5910974510923776 (-49).

(** ** Key bindings and the texture slot *)

Definition with_map_texture (t : option PNMImage) (a : App) : App :=
  {| car := car a; map_texture := t; speed := speed a;
     steering_angle := steering_angle a; manual_mode := manual_mode a;
     autonomous_steering_correction := autonomous_steering_correction a;
     stdout := stdout a |}.

(** The table built by [setup_controls] (lines 68-78): each accepted event
    with the callback it triggers and its extra argument. *)
Definition setup_controls : list (string * command) :=
  [ ("w"%string, Accelerate (int: 1));
    ("s"%string, Accelerate (int: (-1)));
    ("a"%string, Steer (int: (-1)));
    ("d"%string, Steer (int: 1));
    ("w-up"%string, StopAccelerate);
    ("s-up"%string, StopAccelerate);
    ("a-up"%string, StopTurn);
    ("d-up"%string, StopTurn);
    ("m"%string, ToggleMode) ].

(** The callback accepted for an event, if any. *)
Fixpoint accepted (bindings : list (string * command)) (event : string)
  : option command :=
  match bindings with
  | [] => None
  | (e, c) :: rest =>
    if String.eqb e event then Some c else accepted rest event
  end.

(** What reaches the application between two frames: a key event, or the
    frame task with its elapsed time. *)
Inductive input : Type :=
  | Key (event : string)
  | Frame (dt : float).

Section Session.

Variable sin cos : float -> pyval float.

(** An event with no accepted callback is dropped. *)
Definition send (event : string) : M unit :=
  match accepted setup_controls event with
  | Some c => exec sin cos c
  | None => ret tt
  end.

Definition step (i : input) : M unit :=
  match i with
  | Key event => send event
  | Frame dt => update_car sin cos dt
  end.

Fixpoint play (inputs : list input) : M unit :=
  match inputs with
  | [] => ret tt
  | i :: rest => step i ;; play rest
  end.

End Session.

(** ** Order facts on binary64 *)

Module FloatFacts.

Lemma compare_antisym (x y : float) :
  SFcompare y x = option_map CompOpp (SFcompare x y).
Proof.
  destruct x as [sx|sx| |sx mx ex], y as [sy|sy| |sy my ey]; simpl;
    try reflexivity;
    try (destruct sx; reflexivity); try (destruct sy; reflexivity);
    try (destruct sx, sy; reflexivity).
  destruct sx, sy; simpl; try reflexivity;
    rewrite (Z.compare_antisym ex ey);
    destruct (ex ?= ey)%Z; simpl; try reflexivity; f_equal.
  - rewrite CompOpp_involutive.
    now rewrite (Pos.compare_cont_antisym my mx Eq).
  - now rewrite (Pos.compare_cont_antisym mx my Eq).
Qed.

Lemma compare_nan (x y : float) :
  SFcompare x y = None -> is_nan x = true \/ is_nan y = true.
Proof.
  destruct x as [sx|sx| |sx mx ex], y as [sy|sy| |sy my ey]; simpl;
    intros H; try discriminate H; auto.
Qed.

Lemma compare_number (x y : float) :
  is_nan x = false -> is_nan y = false -> exists c, SFcompare x y = Some c.
Proof.
  intros Hx Hy. destruct (SFcompare x y) as [c|] eqn:E; [now exists c|].
  destruct (compare_nan _ _ E); congruence.
Qed.

Lemma ltb_number (x y : float) :
  (x <? y)%py = true -> is_nan x = false /\ is_nan y = false.
Proof.
  unfold ltb, SFltb.
  destruct x as [sx|sx| |sx mx ex], y as [sy|sy| |sy my ey]; simpl;
    intros H; try discriminate H; auto.
Qed.

Lemma leb_number (x y : float) :
  (x <=? y)%py = true -> is_nan x = false /\ is_nan y = false.
Proof.
  unfold leb, SFleb.
  destruct x as [sx|sx| |sx mx ex], y as [sy|sy| |sy my ey]; simpl;
    intros H; try discriminate H; auto.
Qed.

Lemma ltb_irrefl (x : float) : (x <? x)%py = false.
Proof.
  unfold ltb, SFltb. generalize (compare_antisym x x).
  destruct (SFcompare x x) as [[ | | ]|]; simpl; congruence.
Qed.

(** Two finite numbers that compare equal are the same mantissa and
    exponent. *)
Lemma compare_eq_finite (s s' : bool) (m m' : positive) (e e' : Z) :
  SFcompare (S754_finite s m e) (S754_finite s' m' e') = Some Eq ->
  S754_finite s m e = S754_finite s' m' e'.
Proof.
  simpl. destruct s, s'; try discriminate;
    destruct (e ?= e')%Z eqn:E; try discriminate;
    apply Z.compare_eq in E; subst e'; intros H;
    assert (Hm : (m ?= m')%positive = Eq)
      by (unfold Pos.compare; destruct (Pos.compare_cont Eq m m');
          simpl in H; congruence);
    apply Pos.compare_eq in Hm; now subst m'.
Qed.

(** Across signs the comparison of finite numbers looks at nothing else. *)
Lemma compare_pos_neg (m m' : positive) (e e' : Z) :
  SFcompare (S754_finite false m e) (S754_finite true m' e') = Some Gt.
Proof. reflexivity. Qed.

Lemma compare_neg_pos (m m' : positive) (e e' : Z) :
  SFcompare (S754_finite true m e) (S754_finite false m' e') = Some Lt.
Proof. reflexivity. Qed.

Lemma ltb_leb (x y : float) : (x <? y)%py = true -> (x <=? y)%py = true.
Proof.
  unfold ltb, leb, SFltb, SFleb.
  destruct (SFcompare x y) as [[ | | ]|]; congruence.
Qed.

(** Between two numbers, "not greater" is "less or equal". *)
Lemma not_gtb_leb (x y : float) :
  is_nan x = false -> is_nan y = false ->
  (x >? y)%py = false -> (x <=? y)%py = true.
Proof.
  intros Hx Hy. unfold ltb, leb, SFltb, SFleb.
  rewrite (compare_antisym x y).
  destruct (compare_number _ _ Hx Hy) as [c ->]. destruct c; simpl; congruence.
Qed.

(** Adding the negative zero changes nothing, not even the sign of a zero. *)
Lemma add_neg_zero (x : float) : (x + S754_zero true)%py = x.
Proof.
  destruct x as [sx|sx| |sx mx ex]; try reflexivity.
  destruct sx; reflexivity.
Qed.

End FloatFacts.

(** ** Rounding never makes a NaN *)

Module RoundFacts.

Lemma shr_1_nonneg (mrs : shr_record) :
  (0 <= shr_m mrs)%Z -> (0 <= shr_m (shr_1 mrs))%Z.
Proof.
  destruct mrs as [m r s]. cbn [shr_m shr_1].
  destruct m as [|q|q]; try destruct q; cbn [shr_m]; lia.
Qed.

Lemma iter_shr_1_nonneg (p : positive) (mrs : shr_record) :
  (0 <= shr_m mrs)%Z -> (0 <= shr_m (iter_pos shr_1 p mrs))%Z.
Proof.
  revert mrs. induction p as [p IH|p IH|]; intros mrs H; cbn [iter_pos].
  - apply IH, IH, shr_1_nonneg, H.
  - apply IH, IH, H.
  - apply shr_1_nonneg, H.
Qed.

Lemma shr_fexp_nonneg (p em m e : Z) (l : location) :
  (0 <= m)%Z -> (0 <= shr_m (fst (shr_fexp p em m e l)))%Z.
Proof.
  intros H. unfold shr_fexp, shr.
  assert (H0 : (0 <= shr_m (shr_record_of_loc m l))%Z)
    by (destruct l as [|[ | | ]]; exact H).
  destruct (fexp p em (Zdigits2 m + e) - e)%Z as [|q|q]; cbn [fst];
    trivial.
  apply iter_shr_1_nonneg, H0.
Qed.

Lemma round_nearest_even_nonneg (m : Z) (l : location) :
  (0 <= m)%Z -> (0 <= round_nearest_even m l)%Z.
Proof.
  intros H. destruct l as [|[ | | ]]; cbn [round_nearest_even];
    try destruct (Z.even m); lia.
Qed.

(** The branch of [binary_round_aux] that answers NaN is dead: a mantissa
    that starts non-negative stays so through the shifts and the
    rounding. *)
Lemma binary_round_aux_not_nan (p em : Z) (sx : bool) (mx ex : Z)
    (lx : location) :
  (0 <= mx)%Z -> is_nan (binary_round_aux p em sx mx ex lx) = false.
Proof.
  intros H. unfold binary_round_aux.
  pose proof (shr_fexp_nonneg p em mx ex lx H) as H1.
  destruct (shr_fexp p em mx ex lx) as [mrs1 e1]. cbn [fst] in H1.
  pose proof (shr_fexp_nonneg p em
                (round_nearest_even (shr_m mrs1) (loc_of_shr_record mrs1))
                e1 loc_Exact (round_nearest_even_nonneg _ _ H1)) as H2.
  destruct (shr_fexp p em _ e1 loc_Exact) as [mrs2 e2]. cbn [fst] in H2.
  destruct (shr_m mrs2) as [|q|q]; try reflexivity.
  - destruct (e2 <=? em - p)%Z; reflexivity.
  - lia.
Qed.

Lemma binary_round_not_nan (p em : Z) (sx : bool) (mx : positive) (ex : Z) :
  is_nan (binary_round p em sx mx ex) = false.
Proof.
  unfold binary_round. destruct (shl_align _ _ _) as [mz ez].
  apply binary_round_aux_not_nan. lia.
Qed.

(** The node's rounding keeps a number a number. *)
Lemma to_f32_nan (x : float) : is_nan (to_f32 x) = is_nan x.
Proof.
  destruct x as [s|s| |s m e]; try reflexivity.
  unfold to_f32.
  pose proof (binary_round_not_nan prec32 emax32 s m e) as H.
  destruct (binary_round prec32 emax32 s m e) as [s'|s'| |s' m' e'];
    try reflexivity; try discriminate H.
  apply binary_round_not_nan.
Qed.

(** Adding a finite number to a number gives a number. *)
Lemma add_finite_not_nan (x y : float) :
  is_nan x = false -> is_finite y = true -> is_nan (x + y) = false.
Proof.
  destruct x as [sx|sx| |sx mx ex], y as [sy|sy| |sy my ey];
    intros Hx Hy; try discriminate Hx; try discriminate Hy;
    try reflexivity.
  - destruct sx, sy; reflexivity.
  - unfold add, SFadd, binary_normalize.
    destruct (cond_Zopp sx _ + cond_Zopp sy _)%Z;
      [reflexivity|apply binary_round_not_nan..].
Qed.

End RoundFacts.

(** ** Clamping *)

Module ClampFacts.
Import FloatFacts.

(** The clamp of line 84 lands between its bounds whatever it is given,
    a NaN included: [min] passes the NaN on and [max] then keeps [lo]. *)
Lemma clamp_between (v lo hi : float) :
  (lo <=? hi) = true ->
  (lo <=? clamp v lo hi) = true /\ (clamp v lo hi <=? hi) = true.
Proof.
  intros Hlh. destruct (leb_number _ _ Hlh) as [Hlo Hhi].
  assert (Hll : (lo <=? lo) = true)
    by (apply not_gtb_leb; trivial; apply ltb_irrefl).
  unfold clamp, py_max.
  destruct (lo <? py_min v hi) eqn:E; [|now split].
  split; [now apply ltb_leb|].
  destruct (ltb_number _ _ E) as [_ Hm].
  unfold py_min in *. destruct (hi <? v) eqn:E'.
  - apply not_gtb_leb; trivial. apply ltb_irrefl.
  - now apply not_gtb_leb.
Qed.

Lemma max_reverse_speed_eq :
  max_reverse_speed = S754_finite true 5629499534213120 (-49).
Proof. reflexivity. Qed.

Lemma max_forward_speed_eq :
  max_forward_speed = S754_finite false 5629499534213120 (-48).
Proof. reflexivity. Qed.

(** On a number the speed clamp is the usual three-way choice; on a NaN it
    is the lower limit. *)
Lemma clamp_speed_cases (v : float) :
  clamp v max_reverse_speed max_forward_speed =
    if is_nan v then max_reverse_speed
    else if v <? max_reverse_speed then max_reverse_speed
    else if max_forward_speed <? v then max_forward_speed
    else v.
Proof.
  rewrite max_reverse_speed_eq, max_forward_speed_eq.
  unfold clamp, py_max, py_min.
  destruct v as [s|s| |s m e]; try (destruct s; reflexivity); try reflexivity.
  destruct s.
  - (* negative: never above the upper limit *)
    change (S754_finite false 5629499534213120 (-48) <? S754_finite true m e)
      with false.
    set (lo := S754_finite true 5629499534213120 (-49)).
    set (v := S754_finite true m e). cbv iota.
    change (is_nan v) with false. cbv iota.
    destruct (lo <? v) eqn:E.
    + assert (Hvl : (v <? lo) = false); [|now rewrite Hvl].
      unfold ltb, SFltb in *. rewrite (compare_antisym lo v).
      destruct (SFcompare lo v) as [[ | | ]|]; simpl; congruence.
    + destruct (v <? lo) eqn:E3; [reflexivity|].
      unfold ltb, SFltb in E, E3. rewrite (compare_antisym lo v) in E3.
      destruct (SFcompare lo v) as [[ | | ]|] eqn:Hc; simpl in E, E3;
        try discriminate.
      subst lo v. now apply compare_eq_finite.
  - (* positive: never below the lower limit *)
    change (S754_finite false m e <? S754_finite true 5629499534213120 (-49))
      with false.
    change (is_nan (S754_finite false m e)) with false. cbv iota.
    destruct (S754_finite false 5629499534213120 (-48) <? S754_finite false m e);
      reflexivity.
Qed.

End ClampFacts.

Module BoundaryFacts.
Import FloatFacts.

Lemma int_minus_50 : int: (-50) = S754_finite true 7036874417766400 (-47).
Proof. vm_compute. reflexivity. Qed.

Lemma int_50 : int: 50 = S754_finite false 7036874417766400 (-47).
Proof. vm_compute. reflexivity. Qed.

(** No number is both left of -50 and right of 50, so the two assignments
    of [check_boundaries] never both fire. *)
Lemma clamp_coord_cases (c : float) :
  clamp_coord c =
    if c <? int: (-50) then int: (-50)
    else if c >? int: 50 then int: 50 else c.
Proof.
  unfold clamp_coord.
  destruct (c <? int: (-50)) eqn:E1, (c >? int: 50) eqn:E2; try reflexivity.
  exfalso. revert E1 E2. rewrite int_minus_50, int_50. unfold ltb, SFltb.
  destruct c as [s|s| |s m e]; try destruct s;
    rewrite ?compare_pos_neg, ?compare_neg_pos; discriminate.
Qed.

Lemma clamp_coord_not_outside (c : float) :
  (clamp_coord c <? int: (-50)) = false /\ (clamp_coord c >? int: 50) = false.
Proof.
  rewrite clamp_coord_cases.
  destruct (c <? int: (-50)) eqn:E1; [split; reflexivity|].
  destruct (c >? int: 50) eqn:E2; [split; reflexivity|].
  now split.
Qed.

(** The clamp invents no NaN and removes none. *)
Lemma clamp_coord_nan (c : float) : is_nan (clamp_coord c) = is_nan c.
Proof.
  rewrite clamp_coord_cases.
  destruct (c <? int: (-50)) eqn:E1.
  - destruct (ltb_number _ _ E1) as [-> _]. reflexivity.
  - destruct (c >? int: 50) eqn:E2; [|reflexivity].
    destruct (ltb_number _ _ E2) as [_ ->]. reflexivity.
Qed.

Lemma clamp_coord_between (c : float) :
  is_nan c = false ->
  (int: (-50) <=? clamp_coord c) = true /\ (clamp_coord c <=? int: 50) = true.
Proof.
  intros Hc. destruct (clamp_coord_not_outside c) as [H1 H2].
  rewrite <- clamp_coord_nan in Hc.
  split; apply not_gtb_leb; trivial.
Qed.

(** A coordinate already inside is left as it is. *)
Lemma clamp_coord_inside (c : float) :
  (c <? int: (-50)) = false -> (c >? int: 50) = false -> clamp_coord c = c.
Proof. intros H1 H2. rewrite clamp_coord_cases, H1, H2. reflexivity. Qed.

End BoundaryFacts.

(** ** The methods as equations *)

Ltac unfold_monad :=
  unfold print, getX, getY, getZ, getH, getPos, setH, setPos, setX, setY in *;
  unfold bind, gets, modify, ret, call, raise in *.

Section Properties.

Variable sin cos : float -> pyval float.

Lemma accelerate_eq (increment : float) (s : App) :
  accelerate increment s =
    Returns tt
      (if manual_mode s
       then with_speed (clamp (speed s + increment * acceleration_rate)
                          max_reverse_speed max_forward_speed) s
       else s).
Proof.
  unfold accelerate. unfold_monad. destruct (manual_mode s); reflexivity.
Qed.

Lemma steer_eq (direction : float) (s : App) :
  steer direction s =
    Returns tt
      (if manual_mode s && (speed s !=? int: 0)
       then with_steering_angle (direction * int: 15) s else s).
Proof.
  unfold steer. unfold_monad.
  destruct (manual_mode s && (speed s !=? int: 0)); reflexivity.
Qed.

Lemma toggle_mode_eq (s : App) :
  toggle_mode s =
    Returns tt
      (if manual_mode s
       then {| car := car s; map_texture := map_texture s;
               speed := int: 0; steering_angle := int: 0;
               manual_mode := false;
               autonomous_steering_correction := int: 0;
               stdout := stdout s ++ ["Switched to Autonomous Mode"%string] |}
       else {| car := car s; map_texture := map_texture s;
               speed := speed s; steering_angle := steering_angle s;
               manual_mode := true;
               autonomous_steering_correction := autonomous_steering_correction s;
               stdout := stdout s ++ ["Switched to Manual Mode"%string] |}).
Proof.
  unfold toggle_mode. unfold_monad. destruct (manual_mode s); reflexivity.
Qed.

Lemma check_boundaries_eq (s : App) : check_boundaries s = Returns tt (bounded s).
Proof.
  unfold check_boundaries, bounded, clamp_coord. unfold_monad.
  destruct s as [[x y z h] tex v a m c out]. cbn [car pos_x pos_y pos_z hdg].
  destruct (x <? int: (-50)), (x >? int: 50),
    (y <? int: (-50)), (y >? int: 50); reflexivity.
Qed.

Lemma is_car_on_track_eq (s : App) :
  is_car_on_track s =
    match map_texture s with
    | None => Returns true s
    | Some img =>
      match texel (pos_x (car s)) (getXSize img) with
      | Exc e => Raises e
      | Val u =>
        match texel (pos_y (car s)) (getYSize img) with
        | Exc e => Raises e
        | Val v =>
          Returns (if in_texture img u v then near_black img u v else false) s
        end
      end
    end.
Proof.
  unfold is_car_on_track, texel, in_texture, near_black. unfold_monad.
  destruct (map_texture s) as [img|]; [|reflexivity].
  destruct (py_int _) as [u|e]; [|reflexivity].
  destruct (py_int _) as [v|e]; [|reflexivity].
  destruct (_ && _)%bool; reflexivity.
Qed.

Lemma run_autonomous_logic_eq (dt : float) (s : App) :
  run_autonomous_logic sin cos dt s =
    integrated sin cos (hdg (car s) + autonomous_steering_correction s)
      autonomous_speed dt s.
Proof.
  unfold run_autonomous_logic, integrated, moved. unfold_monad.
  destruct (is_nan (hdg (car s) + autonomous_steering_correction s));
    [reflexivity|].
  cbn [car with_car pos_x pos_y pos_z hdg autonomous_steering_correction].
  destruct (sin _) as [sn|e]; [|reflexivity].
  destruct (cos _) as [cs|e]; [|reflexivity].
  destruct (_ || _)%bool; reflexivity.
Qed.

Lemma update_car_move_eq (dt : float) (s : App) :
  update_car_move sin cos dt s =
    integrated sin cos
      (if manual_mode s
       then hdg (car s) + steering_angle s * dt
       else hdg (car s) + autonomous_steering_correction s)
      (if manual_mode s then speed s else autonomous_speed) dt s.
Proof.
  unfold update_car_move. unfold bind at 1. unfold gets at 1.
  destruct (manual_mode s); [|apply run_autonomous_logic_eq].
  unfold integrated, moved. unfold_monad.
  destruct (is_nan (hdg (car s) + steering_angle s * dt)); [reflexivity|].
  cbn [car with_car pos_x pos_y pos_z hdg speed steering_angle].
  destruct (sin _) as [sn|e]; [|reflexivity].
  destruct (cos _) as [cs|e]; [|reflexivity].
  destruct (_ || _)%bool; reflexivity.
Qed.

(** What a returning integration went through. *)
Lemma integrated_returns (h v dt : float) (s s1 : App) :
  integrated sin cos h v dt s = Returns tt s1 ->
  exists sn cs,
    sin (radians h) = Val sn /\ cos (radians h) = Val cs /\
    is_nan h = false /\
    is_nan (pos_x (car s) + - sn * v * dt) = false /\
    is_nan (pos_y (car s) + cs * v * dt) = false /\
    is_nan (pos_z (car s)) = false /\
    s1 = moved h v sn cs dt s.
Proof.
  unfold integrated.
  destruct (is_nan h); [discriminate|].
  destruct (sin _) as [sn|e]; [|discriminate].
  destruct (cos _) as [cs|e]; [|discriminate].
  destruct (is_nan (pos_x (car s) + - sn * v * dt)) eqn:Nx;
    [discriminate|].
  destruct (is_nan (pos_y (car s) + cs * v * dt)) eqn:Ny;
    [discriminate|].
  destruct (is_nan (pos_z (car s))) eqn:Nz; [discriminate|].
  cbn [orb]. intros H; injection H as <-.
  exists sn, cs. now repeat split.
Qed.

Lemma integrated_value (h v dt : float) (s : App) (sn cs : float) :
  sin (radians h) = Val sn -> cos (radians h) = Val cs ->
  is_nan h = false ->
  is_nan (pos_x (car s) + - sn * v * dt) = false ->
  is_nan (pos_y (car s) + cs * v * dt) = false ->
  is_nan (pos_z (car s)) = false ->
  integrated sin cos h v dt s = Returns tt (moved h v sn cs dt s).
Proof.
  intros Hs Hc Nh Nx Ny Nz. unfold integrated.
  now rewrite Nh, Hs, Hc, Nx, Ny, Nz.
Qed.

Lemma update_car_track_eq (s : App) :
  update_car_track s =
    match is_car_on_track s with
    | Raises e => Raises e
    | Returns on_track _ => Returns tt (if on_track then s else corrected s)
    end.
Proof.
  unfold update_car_track. unfold bind at 1. rewrite is_car_on_track_eq.
  destruct (map_texture s) as [img|]; [|reflexivity].
  destruct (texel _ _) as [u|e]; [|reflexivity].
  destruct (texel _ _) as [v|e]; [|reflexivity].
  destruct (if in_texture img u v then _ else _); reflexivity.
Qed.

Lemma update_car_eq (dt : float) (s : App) :
  update_car sin cos dt s =
    match update_car_move sin cos dt s with
    | Raises e => Raises e
    | Returns _ s1 =>
      match is_car_on_track s1 with
      | Raises e => Raises e
      | Returns on_track _ =>
        Returns tt (bounded (if on_track then s1 else corrected s1))
      end
    end.
Proof.
  unfold update_car. unfold bind at 1.
  destruct (update_car_move sin cos dt s) as [[] s1|e]; [|reflexivity].
  unfold bind. rewrite update_car_track_eq.
  destruct (is_car_on_track s1) as [on_track s2|e]; [|reflexivity].
  apply check_boundaries_eq.
Qed.

(** ** What a frame leaves alone *)

Lemma update_car_move_frame (dt : float) (s s1 : App) :
  update_car_move sin cos dt s = Returns tt s1 ->
  exists c, s1 = with_car c s.
Proof.
  rewrite update_car_move_eq. intros H.
  destruct (integrated_returns _ _ _ _ _ H) as (sn & cs & _ & _ & _ & _ & _ & _ & ->).
  eexists. reflexivity.
Qed.

Lemma update_car_frame (dt : float) (s s' : App) :
  update_car sin cos dt s = Returns tt s' ->
  speed s' = speed s /\ steering_angle s' = steering_angle s /\
  manual_mode s' = manual_mode s /\ map_texture s' = map_texture s.
Proof.
  rewrite update_car_eq.
  destruct (update_car_move sin cos dt s) as [[] s1|e] eqn:Em; [|discriminate].
  destruct (update_car_move_frame _ _ _ Em) as [c ->].
  destruct (is_car_on_track _) as [[|] s2|e]; [| |discriminate];
    intros H; injection H as <-; repeat split; reflexivity.
Qed.

Lemma exec_speed_in_range (c : command) (s s' : App) :
  speed_in_range s -> exec sin cos c s = Returns tt s' -> speed_in_range s'.
Proof.
  intros Hs. destruct c as [d| |d| | |dt]; simpl.
  - rewrite accelerate_eq. intros H; injection H as <-.
    destruct (manual_mode s); [|exact Hs].
    apply ClampFacts.clamp_between. reflexivity.
  - intros H; injection H as <-. split; reflexivity.
  - rewrite steer_eq. intros H; injection H as <-.
    destruct (_ && _)%bool; exact Hs.
  - intros H; injection H as <-. exact Hs.
  - rewrite toggle_mode_eq. intros H; injection H as <-.
    destruct (manual_mode s); [split; reflexivity|exact Hs].
  - intros H. apply update_car_frame in H as (Hv & _).
    unfold speed_in_range. now rewrite Hv.
Qed.

Lemma run_speed_in_range (cs : list command) (s s' : App) :
  speed_in_range s -> run sin cos cs s = Returns tt s' -> speed_in_range s'.
Proof.
  revert s. induction cs as [|c cs IH]; intros s Hs; simpl.
  - intros H; injection H as <-. exact Hs.
  - unfold bind. destruct (exec sin cos c s) as [[] s1|e] eqn:E; [|discriminate].
    apply IH. exact (exec_speed_in_range c _ _ Hs E).
Qed.

(** ** The phases of a frame *)

Lemma update_car_of_move (dt : float) (s s1 : App) :
  update_car_move sin cos dt s = Returns tt s1 ->
  update_car sin cos dt s =
    match is_car_on_track s1 with
    | Raises e => Raises e
    | Returns on_track _ =>
      Returns tt (bounded (if on_track then s1 else corrected s1))
    end.
Proof. intros H. now rewrite update_car_eq, H. Qed.

(** After the integration the rest of the frame keeps the heading and
    clamps the position. *)
Lemma update_car_after_move (dt : float) (s s1 s' : App) :
  update_car_move sin cos dt s = Returns tt s1 ->
  update_car sin cos dt s = Returns tt s' ->
  hdg (car s') = hdg (car s1) /\
  pos_x (car s') = clamp_coord (pos_x (car s1)) /\
  pos_y (car s') = clamp_coord (pos_y (car s1)).
Proof.
  intros Hm. rewrite (update_car_of_move _ _ _ Hm).
  destruct (is_car_on_track s1) as [[|] s2|e]; [| |discriminate];
    intros H; injection H as <-; now repeat split.
Qed.

(** Without a texture the track check cannot raise, so the frame
    completes as soon as its integration does. *)
Lemma update_car_returns (dt : float) (s s1 : App) :
  update_car_move sin cos dt s = Returns tt s1 ->
  map_texture s = None ->
  update_car sin cos dt s = Returns tt (bounded s1).
Proof.
  intros Hm Ht. rewrite (update_car_of_move _ _ _ Hm), is_car_on_track_eq.
  destruct (update_car_move_frame _ _ _ Hm) as [c ->]. simpl. now rewrite Ht.
Qed.

Lemma py_int_finite (x : float) :
  is_finite x = true -> exists n, py_int x = Val n.
Proof.
  destruct x as [sx|sx| |sx m e]; simpl; intros H; try discriminate H;
    eexists; reflexivity.
Qed.

(** With a texture the track check raises only on a texture coordinate
    that is infinite or NaN; short of that the frame completes as soon as
    its integration does. *)
Lemma update_car_completes (dt : float) (s s1 : App) :
  update_car_move sin cos dt s = Returns tt s1 ->
  (forall img,
      map_texture s = Some img ->
      is_finite ((pos_x (car s1) + int: 10) * int_truediv (getXSize img) 20)
        = true /\
      is_finite ((pos_y (car s1) + int: 10) * int_truediv (getYSize img) 20)
        = true) ->
  exists s', update_car sin cos dt s = Returns tt s'.
Proof.
  intros Hm Hf. rewrite (update_car_of_move _ _ _ Hm), is_car_on_track_eq.
  destruct (update_car_move_frame _ _ _ Hm) as [c Hc].
  replace (map_texture s1) with (map_texture s) by now rewrite Hc.
  destruct (map_texture s) as [img|]; [|eexists; reflexivity].
  destruct (Hf img eq_refl) as [Hu Hv]. unfold texel.
  destruct (py_int_finite _ Hu) as [u ->].
  destruct (py_int_finite _ Hv) as [v ->].
  eexists; reflexivity.
Qed.

(** ** The claims *)

(** C1 (as amended).  Along every sequence of control callbacks and frames
    from the initial state the speed stays within
    [[max_reverse_speed, max_forward_speed]] = [[-10, 20]].  In manual mode
    [accelerate d] sets the speed to [clamp (speed + d * 0.2) (-10) 20]
    and touches nothing else; in autonomous mode it leaves the state as it
    is.  The clamp is [max(-10, min(v, 20))]: the three-way choice on a
    number, and -10 on a NaN. *)
Theorem speed_within_limits :
  (forall tex cs s,
      run sin cos cs (init tex) = Returns tt s ->
      (int: (-10) <=? speed s) = true /\ (speed s <=? int: 20) = true) /\
  (forall d s,
      manual_mode s = true ->
      accelerate d s =
        Returns tt (with_speed (clamp (speed s + d * acceleration_rate)
                                  (int: (-10)) (int: 20)) s)) /\
  (forall d s, manual_mode s = false -> accelerate d s = Returns tt s) /\
  (forall v,
      clamp v (int: (-10)) (int: 20) =
        if is_nan v then int: (-10)
        else if v <? int: (-10) then int: (-10)
        else if int: 20 <? v then int: 20
        else v).
Proof.
  split; [|split; [|split]].
  - intros tex cs s H.
    apply (run_speed_in_range cs (init tex)); trivial.
    split; reflexivity.
  - intros d s Hm. rewrite accelerate_eq, Hm. reflexivity.
  - intros d s Hm. rewrite accelerate_eq, Hm. reflexivity.
  - exact ClampFacts.clamp_speed_cases.
Qed.

(** C2.  A frame that completes, in either mode and on or off the track,
    ends with [check_boundaries] applied to the state its first two phases
    produced: each coordinate is clamped on its own by [clamp_coord].
    Afterwards neither coordinate is left of -50 or right of 50, and each
    coordinate that is a number satisfies [-50 <= c <= 50] (the clamp
    neither makes nor removes a NaN). *)
Theorem position_within_boundary (dt : float) (s s' : App) :
  update_car sin cos dt s = Returns tt s' ->
  (exists s1,
      (update_car_move sin cos dt ;; update_car_track) s = Returns tt s1 /\
      pos_x (car s') = clamp_coord (pos_x (car s1)) /\
      pos_y (car s') = clamp_coord (pos_y (car s1)) /\
      is_nan (pos_x (car s')) = is_nan (pos_x (car s1)) /\
      is_nan (pos_y (car s')) = is_nan (pos_y (car s1))) /\
  ((pos_x (car s') <? int: (-50)) = false /\
   (pos_x (car s') >? int: 50) = false /\
   (pos_y (car s') <? int: (-50)) = false /\
   (pos_y (car s') >? int: 50) = false) /\
  (is_nan (pos_x (car s')) = false ->
   (int: (-50) <=? pos_x (car s')) = true /\
   (pos_x (car s') <=? int: 50) = true) /\
  (is_nan (pos_y (car s')) = false ->
   (int: (-50) <=? pos_y (car s')) = true /\
   (pos_y (car s') <=? int: 50) = true).
Proof.
  intros H.
  assert (exists s1,
             (update_car_move sin cos dt ;; update_car_track) s = Returns tt s1
             /\ s' = bounded s1) as (s1 & H1 & ->).
  { unfold update_car in H. unfold bind in *. cbv beta in *.
    destruct (update_car_move sin cos dt s) as [[] s0|e]; [|discriminate].
    destruct (update_car_track s0) as [[] s1|e]; [|discriminate].
    rewrite check_boundaries_eq in H. injection H as <-.
    exists s1. split; reflexivity. }
  unfold bounded. cbn [car with_car pos_x pos_y].
  destruct (BoundaryFacts.clamp_coord_not_outside (pos_x (car s1))) as [X1 X2].
  destruct (BoundaryFacts.clamp_coord_not_outside (pos_y (car s1))) as [Y1 Y2].
  split; [|split; [|split]].
  - exists s1. rewrite !BoundaryFacts.clamp_coord_nan.
    split; [exact H1|]. repeat split; reflexivity.
  - repeat split; assumption.
  - rewrite BoundaryFacts.clamp_coord_nan.
    apply BoundaryFacts.clamp_coord_between.
  - rewrite BoundaryFacts.clamp_coord_nan.
    apply BoundaryFacts.clamp_coord_between.
Qed.

(** C3 (as amended).  With a texture loaded, the track check maps the
    position to [u = int((x + 10) * (width / 20))] and
    [v = int((y + 10) * (height / 20))], where [int] rounds toward zero;
    when both are defined and [(u, v)] lies outside
    [[0, width) x [0, height)] the check answers off-track whatever the
    pixels are, in particular when [u = -1]. *)
Theorem off_texture_is_off_track (s : App) (img : PNMImage) (u v : Z) :
  map_texture s = Some img ->
  py_int ((pos_x (car s) + int: 10) * int_truediv (getXSize img) 20) = Val u ->
  py_int ((pos_y (car s) + int: 10) * int_truediv (getYSize img) 20) = Val v ->
  (~ (0 <= u < getXSize img /\ 0 <= v < getYSize img)%Z ->
   is_car_on_track s = Returns false s) /\
  (u = (-1)%Z -> is_car_on_track s = Returns false s).
Proof.
  intros Ht Hu Hv.
  assert (Hout : in_texture img u v = false ->
                 is_car_on_track s = Returns false s).
  { intros Hin. rewrite is_car_on_track_eq, Ht. unfold texel.
    now rewrite Hu, Hv, Hin. }
  split.
  - intros Hn. apply Hout. unfold in_texture.
    destruct ((0 <=? u) && (u <? getXSize img)
              && ((0 <=? v) && (v <? getYSize img)))%Z eqn:E; [|reflexivity].
    exfalso. apply Hn.
    apply andb_prop in E as [E1 E2].
    apply andb_prop in E1 as [E1 E1'].
    apply andb_prop in E2 as [E2 E2']. lia.
  - intros ->. apply Hout. reflexivity.
Qed.

(** C4.  A toggle out of manual mode ends in autonomous mode with speed,
    steering angle and correction all zero, whatever they were; a toggle
    out of autonomous mode changes the mode and no other field of the
    vehicle (the console line apart). *)
Theorem toggle_mode_resets (s : App) :
  (manual_mode s = true ->
   exists s', toggle_mode s = Returns tt s' /\
     manual_mode s' = false /\
     speed s' = int: 0 /\ steering_angle s' = int: 0 /\
     autonomous_steering_correction s' = int: 0 /\
     car s' = car s /\ map_texture s' = map_texture s) /\
  (manual_mode s = false ->
   exists s', toggle_mode s = Returns tt s' /\
     manual_mode s' = true /\
     speed s' = speed s /\ steering_angle s' = steering_angle s /\
     autonomous_steering_correction s' = autonomous_steering_correction s /\
     car s' = car s /\ map_texture s' = map_texture s).
Proof.
  split; intros Hm; rewrite toggle_mode_eq, Hm; eexists; split;
    try reflexivity; now repeat split.
Qed.

(** C5 (as amended).  In manual mode a frame first gives the node the
    heading [heading + steering_angle * dt] and then moves the position by
    [dx = -sin(radians(heading)) * speed * dt] and
    [dy = cos(radians(heading)) * speed * dt] taken at the new heading;
    the node holds the heading and the position in single precision (and
    refuses a NaN), and the rest of the frame keeps that heading and
    clamps each coordinate into the boundary.  With heading 0, speed 10,
    steering angle 0 and [dt = 1], where the sine is 0 and the cosine 1,
    the integration moves the position to the old one plus [(0, 10)]
    rounded to single precision; the frame ends at the old position plus
    [(0, 10)] exactly when that point is a single-precision point inside
    the boundary, and at its rounding and clamp otherwise. *)
Theorem manual_tick_integrates :
  (forall dt s sn cs,
      manual_mode s = true ->
      let heading := hdg (car s) + steering_angle s * dt in
      sin (radians heading) = Val sn ->
      cos (radians heading) = Val cs ->
      let x1 := pos_x (car s) + - sn * speed s * dt in
      let y1 := pos_y (car s) + cs * speed s * dt in
      is_nan heading = false ->
      is_nan x1 = false -> is_nan y1 = false ->
      is_nan (pos_z (car s)) = false ->
      (exists s1,
          update_car_move sin cos dt s = Returns tt s1 /\
          hdg (car s1) = to_f32 heading /\
          pos_x (car s1) = to_f32 x1 /\ pos_y (car s1) = to_f32 y1) /\
      (forall s',
          update_car sin cos dt s = Returns tt s' ->
          hdg (car s') = to_f32 heading /\
          pos_x (car s') = clamp_coord (to_f32 x1) /\
          pos_y (car s') = clamp_coord (to_f32 y1)) /\
      (map_texture s = None ->
       exists s', update_car sin cos dt s = Returns tt s')) /\
  (sin (radians (int: 0)) = Val (int: 0) ->
   cos (radians (int: 0)) = Val (int: 1) ->
   forall s,
     manual_mode s = true ->
     hdg (car s) = int: 0 -> speed s = int: 10 -> steering_angle s = int: 0 ->
     is_nan (pos_x (car s)) = false ->
     is_nan (pos_y (car s)) = false ->
     is_nan (pos_z (car s)) = false ->
     (exists s1,
         update_car_move sin cos (int: 1) s = Returns tt s1 /\
         pos_x (car s1) = to_f32 (pos_x (car s)) /\
         pos_y (car s1) = to_f32 (pos_y (car s) + int: 10)) /\
     (forall s',
         update_car sin cos (int: 1) s = Returns tt s' ->
         pos_x (car s') = clamp_coord (to_f32 (pos_x (car s))) /\
         pos_y (car s') = clamp_coord (to_f32 (pos_y (car s) + int: 10))) /\
     (forall s',
         update_car sin cos (int: 1) s = Returns tt s' ->
         to_f32 (pos_x (car s)) = pos_x (car s) ->
         to_f32 (pos_y (car s) + int: 10) = pos_y (car s) + int: 10 ->
         (pos_x (car s) <? int: (-50)) = false ->
         (pos_x (car s) >? int: 50) = false ->
         (pos_y (car s) + int: 10 <? int: (-50)) = false ->
         (pos_y (car s) + int: 10 >? int: 50) = false ->
         pos_x (car s') = pos_x (car s) /\
         pos_y (car s') = pos_y (car s) + int: 10)).
Proof.
  assert (G : forall dt s sn cs,
      manual_mode s = true ->
      sin (radians (hdg (car s) + steering_angle s * dt)) = Val sn ->
      cos (radians (hdg (car s) + steering_angle s * dt)) = Val cs ->
      is_nan (hdg (car s) + steering_angle s * dt) = false ->
      is_nan (pos_x (car s) + - sn * speed s * dt) = false ->
      is_nan (pos_y (car s) + cs * speed s * dt) = false ->
      is_nan (pos_z (car s)) = false ->
      update_car_move sin cos dt s =
        Returns tt (moved (hdg (car s) + steering_angle s * dt) (speed s)
                      sn cs dt s)).
  { intros dt s sn cs Hm Hs Hc Nh Nx Ny Nz.
    rewrite update_car_move_eq, Hm. now apply integrated_value. }
  split.
  - intros dt s sn cs Hm heading Hs Hc x1 y1 Nh Nx Ny Nz.
    pose proof (G dt s sn cs Hm Hs Hc Nh Nx Ny Nz) as Hmv.
    split; [|split].
    + eexists. split; [exact Hmv|]. now repeat split.
    + intros s' H. exact (update_car_after_move _ _ _ _ Hmv H).
    + intros Ht. eexists. exact (update_car_returns _ _ _ Hmv Ht).
  - intros Hs Hc s Hm Hh Hv Ha Nx Ny Nz.
    assert (Hdx : - int: 0 * int: 10 * int: 1 = S754_zero true)
      by (vm_compute; reflexivity).
    assert (Hdy : int: 1 * int: 10 * int: 1 = int: 10)
      by (vm_compute; reflexivity).
    assert (Hh0 : int: 0 + int: 0 * int: 1 = int: 0)
      by (vm_compute; reflexivity).
    assert (Hmv : update_car_move sin cos (int: 1) s =
                  Returns tt (moved (int: 0) (int: 10) (int: 0) (int: 1)
                                (int: 1) s)).
    { rewrite (G (int: 1) s (int: 0) (int: 1) Hm);
        rewrite ?Hh, ?Ha, ?Hv, ?Hh0, ?Hdx, ?Hdy, ?FloatFacts.add_neg_zero;
        trivial.
      apply RoundFacts.add_finite_not_nan; trivial. }
    assert (Hx : pos_x (car (moved (int: 0) (int: 10) (int: 0) (int: 1)
                               (int: 1) s)) = to_f32 (pos_x (car s))).
    { unfold moved. cbn [car with_car pos_x].
      now rewrite Hdx, FloatFacts.add_neg_zero. }
    assert (Hy : pos_y (car (moved (int: 0) (int: 10) (int: 0) (int: 1)
                               (int: 1) s))
                 = to_f32 (pos_y (car s) + int: 10)).
    { unfold moved. cbn [car with_car pos_y]. now rewrite Hdy. }
    split; [|split].
    + eexists. split; [exact Hmv|]. now split.
    + intros s' H.
      destruct (update_car_after_move _ _ _ _ Hmv H) as (_ & Hx' & Hy').
      now rewrite Hx in Hx'; rewrite Hy in Hy'.
    + intros s' H Rx Ry X1 X2 Y1 Y2.
      destruct (update_car_after_move _ _ _ _ Hmv H) as (_ & Hx' & Hy').
      rewrite Hx, Rx in Hx'; rewrite Hy, Ry in Hy'.
      now rewrite Hx', Hy', !BoundaryFacts.clamp_coord_inside.
Qed.

(** C6 (as amended).  In autonomous mode a frame gives the node the
    heading [heading + autonomous_steering_correction], with no factor
    [dt], and then moves the position by
    [dx = -sin(radians(heading)) * 10 * dt] and
    [dy = cos(radians(heading)) * 10 * dt] taken at the new heading; the
    constant 10 is [autonomous_speed] and the [speed] field plays no part.
    The node holds the heading and the position in single precision (and
    refuses a NaN); the rest of the frame keeps that heading and clamps
    each coordinate into the boundary. *)
Theorem autonomous_tick_integrates (dt : float) (s : App) (sn cs : float) :
  manual_mode s = false ->
  let heading := hdg (car s) + autonomous_steering_correction s in
  sin (radians heading) = Val sn ->
  cos (radians heading) = Val cs ->
  let x1 := pos_x (car s) + - sn * int: 10 * dt in
  let y1 := pos_y (car s) + cs * int: 10 * dt in
  is_nan heading = false ->
  is_nan x1 = false -> is_nan y1 = false ->
  is_nan (pos_z (car s)) = false ->
  (exists s1,
      run_autonomous_logic sin cos dt s = Returns tt s1 /\
      update_car_move sin cos dt s = Returns tt s1 /\
      hdg (car s1) = to_f32 heading /\
      pos_x (car s1) = to_f32 x1 /\ pos_y (car s1) = to_f32 y1) /\
  (forall v,
      exists s1,
        run_autonomous_logic sin cos dt (with_speed v s) = Returns tt s1 /\
        hdg (car s1) = to_f32 heading /\
        pos_x (car s1) = to_f32 x1 /\ pos_y (car s1) = to_f32 y1) /\
  (forall s',
      update_car sin cos dt s = Returns tt s' ->
      hdg (car s') = to_f32 heading /\
      pos_x (car s') = clamp_coord (to_f32 x1) /\
      pos_y (car s') = clamp_coord (to_f32 y1)) /\
  (map_texture s = None ->
   exists s', update_car sin cos dt s = Returns tt s').
Proof.
  intros Hm heading Hs Hc x1 y1 Nh Nx Ny Nz.
  assert (Hr : forall v, run_autonomous_logic sin cos dt (with_speed v s) =
               Returns tt (moved heading autonomous_speed sn cs dt
                             (with_speed v s))).
  { intros v. rewrite run_autonomous_logic_eq.
    now apply integrated_value. }
  assert (Hmv : update_car_move sin cos dt s =
                Returns tt (moved heading autonomous_speed sn cs dt s)).
  { rewrite update_car_move_eq, Hm. now apply integrated_value. }
  split; [|split; [|split]].
  - eexists. split; [|split; [exact Hmv|now repeat split]].
    rewrite run_autonomous_logic_eq. now apply integrated_value.
  - intros v. eexists. split; [apply Hr|]. now repeat split.
  - intros s' H. exact (update_car_after_move _ _ _ _ Hmv H).
  - intros Ht. eexists. exact (update_car_returns _ _ _ Hmv Ht).
Qed.

(** C7.  In either mode, when the position reached by the integration is
    classified off-track the frame sets the correction to +1 if that
    position has [x < 0] and to -1 otherwise ([x = 0] included); when it
    is classified on-track the frame leaves the correction as it was. *)
Theorem off_track_sets_correction (dt : float) (s s1 s2 : App) (on_track : bool) :
  update_car_move sin cos dt s = Returns tt s1 ->
  is_car_on_track s1 = Returns on_track s2 ->
  exists s',
    update_car sin cos dt s = Returns tt s' /\
    manual_mode s' = manual_mode s /\
    autonomous_steering_correction s' =
      if on_track then autonomous_steering_correction s
      else if pos_x (car s1) <? int: 0 then int: 1 else int: (-1).
Proof.
  intros Hm Ht. rewrite (update_car_of_move _ _ _ Hm), Ht.
  destruct (update_car_move_frame _ _ _ Hm) as [c ->].
  eexists. split; [reflexivity|]. destruct on_track; now split.
Qed.

(** C8.  Without a texture the track check answers on-track at every
    position.  With a texture, at a position whose texel [(u, v)] is
    inside it, the check answers on-track exactly when the red, green and
    blue samples at [(u, v)] are each below 10. *)
Theorem track_check_fail_open :
  (forall s, map_texture s = None -> is_car_on_track s = Returns true s) /\
  (forall s img u v,
      map_texture s = Some img ->
      py_int ((pos_x (car s) + int: 10) * int_truediv (getXSize img) 20) = Val u ->
      py_int ((pos_y (car s) + int: 10) * int_truediv (getYSize img) 20) = Val v ->
      (0 <= u < getXSize img)%Z -> (0 <= v < getYSize img)%Z ->
      is_car_on_track s =
        Returns ((getRed img u v <? int: 10) && (getGreen img u v <? int: 10)
                 && (getBlue img u v <? int: 10)) s).
Proof.
  split.
  - intros s Ht. now rewrite is_car_on_track_eq, Ht.
  - intros s img u v Ht Hu Hv Bu Bv.
    rewrite is_car_on_track_eq, Ht. unfold texel. rewrite Hu, Hv.
    replace (in_texture img u v) with true; [reflexivity|].
    symmetry. unfold in_texture.
    repeat (apply andb_true_intro; split);
      first [apply Z.leb_le | apply Z.ltb_lt]; lia.
Qed.

(** C9.  [steer direction] sets the steering angle to [direction * 15]
    when the mode is manual and the speed differs from 0, and touches
    nothing else; in autonomous mode, or at a speed equal to 0, it leaves
    the whole state as it is. *)
Theorem steer_gated (direction : float) (s : App) :
  (manual_mode s = true -> (speed s =? int: 0) = false ->
   steer direction s =
     Returns tt (with_steering_angle (direction * int: 15) s)) /\
  (manual_mode s = false \/ (speed s =? int: 0) = true ->
   steer direction s = Returns tt s).
Proof.
  rewrite steer_eq. split.
  - intros -> ->. reflexivity.
  - intros [-> | ->]; [reflexivity|].
    now rewrite andb_false_r.
Qed.

(** C10.  The track check reads and does not write: when it answers, the
    state it leaves is the state it was given, field for field.  The
    correction on an off-track answer is written by its caller in
    [update_car]. *)
Theorem is_car_on_track_read_only :
  (forall s s' on_track, is_car_on_track s = Returns on_track s' -> s' = s) /\
  (forall s s',
      update_car_track s = Returns tt s' ->
      exists on_track,
        is_car_on_track s = Returns on_track s /\
        s' = if on_track then s else corrected s).
Proof.
  assert (R : forall s s' on_track,
             is_car_on_track s = Returns on_track s' -> s' = s).
  { intros s s' on_track. rewrite is_car_on_track_eq.
    destruct (map_texture s) as [img|].
    - destruct (texel _ _) as [u|e]; [|discriminate].
      destruct (texel _ _) as [v|e]; [|discriminate].
      intros H; now injection H.
    - intros H; now injection H. }
  split; [exact R|].
  intros s s'. rewrite update_car_track_eq.
  destruct (is_car_on_track s) as [on_track s2|e] eqn:E; [|discriminate].
  intros H; injection H as <-. exists on_track.
  pose proof (R _ _ _ E) as Hs. subst s2. split; reflexivity.
Qed.

End Properties.

(** ** The claims that fail as worded *)

(** C1 as worded: [accelerate] is gated on the mode.  After one toggle
    from the initial state the car is autonomous at speed 0; there
    [accelerate(1)] returns the state as it was, while
    [clamp(0 + 1 * 0.2, -10, 20)] is 0.2. *)
Lemma accelerate_in_autonomous_mode_counterexample :
  exists s,
    toggle_mode (init None) = Returns tt s /\
    manual_mode s = false /\
    speed s = int: 0 /\
    accelerate (int: 1) s = Returns tt s /\
    clamp (speed s + int: 1 * acceleration_rate) (int: (-10)) (int: 20)
      = acceleration_rate /\
    speed s <>
      clamp (speed s + int: 1 * acceleration_rate) (int: (-10)) (int: 20).
Proof.
  eexists. split; [reflexivity|]. repeat split. discriminate.
Qed.

(** C3 as worded: [int] rounds toward zero, not down.  On a black 20 x 20
    texture the position [(-10.5, 0)] has [floor((x + 10) * 20 / 20) = -1],
    outside the texture, yet line 155 computes [u = 0] and the check
    answers on-track from the pixel. *)
Lemma floor_texel_counterexample :
  let img := black_image 20 20 in
  let s := car_at (Some img) true minus_ten_and_half (int: 0) (int: 0) (int: 0) in
  spec_texel (pos_x (car s)) (getXSize img) = Some (-1)%Z /\
  spec_texel (pos_y (car s)) (getYSize img) = Some 10%Z /\
  in_texture img (-1) 10 = false /\
  texel (pos_x (car s)) (getXSize img) = Val 0%Z /\
  is_car_on_track s = Returns true s.
Proof. repeat split. Qed.

(** C5 as worded: the boundary clamp follows the integration, and the
    node rounds what it is given.  With heading 0, speed 10, steering
    angle 0 and [dt = 1], the sine being 0 and the cosine 1: from
    [(0, 45)] the frame ends at [(0, 50)], not at [(0, 55)]; and from
    [(-3, 8.2f)], well inside the boundary, it ends at
    [y = 18.200000762939453], the single-precision neighbour of
    [8.2f + 10 = 18.199999809265137]. *)
Lemma manual_tick_boundary_counterexample :
  let s := car_at None true (int: 0) (int: 45) (int: 0) (int: 10) in
  let t := car_at None true (int: (-3)) y_8_2f (int: 0) (int: 10) in
  sin_poly (radians (int: 0)) = Val (int: 0) /\
  cos_poly (radians (int: 0)) = Val (int: 1) /\
  (exists s',
    update_car sin_poly cos_poly (int: 1) s = Returns tt s' /\
    pos_x (car s') = int: 0 /\
    pos_y (car s') = int: 50 /\
    pos_y (car s) + int: 10 = int: 55 /\
    pos_y (car s') <> pos_y (car s) + int: 10) /\
  (exists t',
    update_car sin_poly cos_poly (int: 1) t = Returns tt t' /\
    pos_y (car t') = S754_finite false 5122844790882304 (-48) /\
    pos_y (car t) + int: 10 = S754_finite false 5122844522446848 (-48) /\
    pos_y (car t') <> pos_y (car t) + int: 10).
Proof.
  split; [reflexivity|]. split; [reflexivity|]. split.
  - eexists. split; [vm_compute; reflexivity|]. repeat split. discriminate.
  - eexists. split; [vm_compute; reflexivity|].
    repeat split; try (vm_compute; reflexivity). vm_compute. discriminate.
Qed.

(** C6 as worded: the node rounds the heading it is given.  In
    autonomous mode at heading [0.24f] with correction 1, the frame
    computes [0.24f + 1 = 1.239999994635582] and the node then holds
    [1.2400000095367432]. *)
Lemma autonomous_heading_rounding_counterexample :
  let s := with_correction (int: 1)
             (car_at None false (int: 0) (int: 0) h_0_24f (int: 0)) in
  exists s',
    update_car sin_poly cos_poly (int: 0) s = Returns tt s' /\
    hdg (car s') = S754_finite false 5584463580889088 (-52) /\
    hdg (car s) + autonomous_steering_correction s
      = S754_finite false 5584463513780224 (-52) /\
    hdg (car s') <> hdg (car s) + autonomous_steering_correction s.
Proof.
  eexists. split; [vm_compute; reflexivity|].
  repeat split; try (vm_compute; reflexivity). vm_compute. discriminate.
Qed.

(** ** Instances *)

(** A long press of the accelerator, a frame, reverse, a toggle. *)
Lemma speed_within_limits_witness :
  let cs := [Accelerate (int: 1000); Tick (int: 1); Accelerate (int: (-7));
             ToggleMode; Accelerate (int: 3)] in
  exists s,
    run sin_poly cos_poly cs (init None) = Returns tt s /\
    (int: (-10) <=? speed s) = true /\ (speed s <=? int: 20) = true.
Proof.
  eexists. split; [vm_compute; reflexivity|].
  apply (proj1 (speed_within_limits sin_poly cos_poly) None
           [Accelerate (int: 1000); Tick (int: 1); Accelerate (int: (-7));
            ToggleMode; Accelerate (int: 3)]).
  vm_compute. reflexivity.
Defined.

(** A frame that would carry the car from [(0, 45)] to [(0, 55)]. *)
Lemma position_within_boundary_witness :
  exists s',
    update_car sin_poly cos_poly (int: 1)
      (car_at None true (int: 0) (int: 45) (int: 0) (int: 10)) = Returns tt s' /\
    (int: (-50) <=? pos_y (car s')) = true /\
    (pos_y (car s') <=? int: 50) = true.
Proof.
  eexists. split; [vm_compute; reflexivity|].
  refine (proj2 (proj2 (proj2
    (position_within_boundary sin_poly cos_poly (int: 1)
       (car_at None true (int: 0) (int: 45) (int: 0) (int: 10)) _ _))) _);
    vm_compute; reflexivity.
Defined.

(** Two and a half units left of the track square on a black texture:
    [u = int(-2.5) = -2]. *)
Lemma off_texture_is_off_track_witness :
  let img := black_image 20 20 in
  let s := car_at (Some img) true (int: (-12) + minus_ten_and_half + int: 10)
             (int: 0) (int: 0) (int: 0) in
  texel (pos_x (car s)) 20 = Val (-2)%Z /\
  is_car_on_track s = Returns false s.
Proof.
  split; [reflexivity|].
  refine (proj1 (off_texture_is_off_track
                   (car_at (Some (black_image 20 20)) true
                      (int: (-12) + minus_ten_and_half + int: 10)
                      (int: 0) (int: 0) (int: 0))
                   (black_image 20 20) (-2)%Z 10%Z _ _ _) _);
    try (vm_compute; reflexivity).
  simpl. lia.
Defined.

Lemma toggle_mode_resets_witness :
  exists s',
    toggle_mode (car_at None true (int: 0) (int: 0) (int: 90) (int: 12))
      = Returns tt s' /\
    manual_mode s' = false /\ speed s' = int: 0.
Proof.
  destruct (proj1 (toggle_mode_resets
                     (car_at None true (int: 0) (int: 0) (int: 90) (int: 12)))
              eq_refl) as (s' & H & Hm & Hv & _).
  exists s'. now repeat split.
Defined.

Lemma manual_tick_integrates_witness :
  exists s1,
    update_car_move sin_poly cos_poly (int: 1)
      (car_at None true (int: (-3)) (int: 8) (int: 0) (int: 10))
      = Returns tt s1 /\
    pos_x (car s1) = int: (-3) /\
    pos_y (car s1) = int: 8 + int: 10.
Proof.
  exact (proj1 (proj2 (manual_tick_integrates sin_poly cos_poly)
                  eq_refl eq_refl
                  (car_at None true (int: (-3)) (int: 8) (int: 0) (int: 10))
                  eq_refl eq_refl eq_refl eq_refl
                  eq_refl eq_refl eq_refl)).
Defined.

Lemma autonomous_tick_integrates_witness :
  exists s',
    update_car sin_poly cos_poly (int: 2)
      (car_at None false (int: (-3)) (int: 8) (int: 0) (int: 0))
      = Returns tt s'.
Proof.
  refine (proj2 (proj2 (proj2
    (autonomous_tick_integrates sin_poly cos_poly (int: 2)
       (car_at None false (int: (-3)) (int: 8) (int: 0) (int: 0))
       (int: 0) (int: 1) _ _ _ _ _ _ _))) _);
    vm_compute; reflexivity.
Defined.

(** Off a white texture at [x = 5], then at [x = -5]. *)
Lemma off_track_sets_correction_witness :
  let img := white_image 20 20 in
  (exists s',
      update_car sin_poly cos_poly (int: 0)
        (car_at (Some img) true (int: 5) (int: 0) (int: 0) (int: 0))
        = Returns tt s' /\
      autonomous_steering_correction s' = int: (-1)) /\
  (exists s',
      update_car sin_poly cos_poly (int: 0)
        (car_at (Some img) false (int: (-5)) (int: 0) (int: 0) (int: 0))
        = Returns tt s' /\
      autonomous_steering_correction s' = int: 1).
Proof.
  split.
  - destruct (off_track_sets_correction sin_poly cos_poly (int: 0)
                (car_at (Some (white_image 20 20)) true
                   (int: 5) (int: 0) (int: 0) (int: 0))
                _ _ false eq_refl eq_refl) as (s' & H & _ & Hc).
    exists s'. split; [exact H|exact Hc].
  - destruct (off_track_sets_correction sin_poly cos_poly (int: 0)
                (car_at (Some (white_image 20 20)) false
                   (int: (-5)) (int: 0) (int: 0) (int: 0))
                _ _ false eq_refl eq_refl) as (s' & H & _ & Hc).
    exists s'. split; [exact H|exact Hc].
Defined.

Lemma track_check_fail_open_witness :
  is_car_on_track (car_at None true (int: 1000) (int: 1000) (int: 0) (int: 0))
    = Returns true
        (car_at None true (int: 1000) (int: 1000) (int: 0) (int: 0)) /\
  is_car_on_track
    (car_at (Some (white_image 20 20)) true (int: 0) (int: 0) (int: 0) (int: 0))
    = Returns false
        (car_at (Some (white_image 20 20)) true (int: 0) (int: 0) (int: 0) (int: 0)).
Proof.
  split.
  - apply (proj1 track_check_fail_open). reflexivity.
  - apply (proj2 track_check_fail_open _ (white_image 20 20) 10%Z 10%Z);
      try reflexivity; simpl; lia.
Defined.

Lemma steer_gated_witness :
  steer (int: (-1)) (car_at None true (int: 0) (int: 0) (int: 0) (int: 10))
    = Returns tt
        (with_steering_angle (int: (-15))
           (car_at None true (int: 0) (int: 0) (int: 0) (int: 10))) /\
  steer (int: (-1)) (car_at None true (int: 0) (int: 0) (int: 0) (int: 0))
    = Returns tt (car_at None true (int: 0) (int: 0) (int: 0) (int: 0)).
Proof.
  split.
  - apply (proj1 (steer_gated (int: (-1))
                    (car_at None true (int: 0) (int: 0) (int: 0) (int: 10))));
      reflexivity.
  - apply (proj2 (steer_gated (int: (-1))
                    (car_at None true (int: 0) (int: 0) (int: 0) (int: 0)))).
    right. reflexivity.
Defined.

(** The check on a white texture, alone and inside [update_car]. *)
Lemma is_car_on_track_read_only_witness :
  let s := car_at (Some (white_image 20 20)) true
             (int: 0) (int: 0) (int: 0) (int: 0) in
  is_car_on_track s = Returns false s /\
  exists on_track,
    is_car_on_track s = Returns on_track s /\
    corrected s = if on_track then s else corrected s.
Proof.
  split; [reflexivity|].
  apply (proj2 is_car_on_track_read_only
           (car_at (Some (white_image 20 20)) true
              (int: 0) (int: 0) (int: 0) (int: 0))).
  reflexivity.
Defined.

(** ** Further properties of the callbacks and the frame task *)

Section Session_properties.

Variable sin cos : float -> pyval float.

(** The state a frame ends in, whenever it ends. *)
Lemma update_car_shape (dt : float) (s s' : App) :
  update_car sin cos dt s = Returns tt s' ->
  exists (c : NodePath) (on_track : bool),
    s' = bounded (if on_track then with_car c s else corrected (with_car c s)).
Proof.
  rewrite update_car_eq.
  destruct (update_car_move sin cos dt s) as [[] s1|e] eqn:Em; [|discriminate].
  destruct (update_car_move_frame sin cos _ _ _ Em) as [c ->].
  destruct (is_car_on_track _) as [on_track s2|e]; [|discriminate].
  intros H; injection H as <-. now exists c, on_track.
Qed.

(** An invariant of every callback and of the frame task is an invariant
    of every run. *)
Lemma run_invariant (P : App -> Prop) :
  (forall c s s', P s -> exec sin cos c s = Returns tt s' -> P s') ->
  forall cs s s', P s -> run sin cos cs s = Returns tt s' -> P s'.
Proof.
  intros Hstep cs. induction cs as [|c cs IH]; intros s s' Hs; simpl.
  - intros H; injection H as <-. exact Hs.
  - unfold bind.
    destruct (exec sin cos c s) as [[] s1|e] eqn:E; [|discriminate].
    apply IH. exact (Hstep c s s1 Hs E).
Qed.

(** Nothing after [__init__] writes the texture slot: whatever was loaded,
    or not loaded, stays for the whole session. *)
Theorem texture_never_changes (cs : list command) (s s' : App) :
  run sin cos cs s = Returns tt s' -> map_texture s' = map_texture s.
Proof.
  apply (run_invariant (fun a => map_texture a = map_texture s));
    [|reflexivity].
  intros c a a' Ha. destruct c as [d| |d| | |dt]; simpl.
  - rewrite accelerate_eq. intros H; injection H as <-.
    now destruct (manual_mode a).
  - intros H; injection H as <-. exact Ha.
  - rewrite steer_eq. intros H; injection H as <-.
    now destruct (_ && _)%bool.
  - intros H; injection H as <-. exact Ha.
  - rewrite toggle_mode_eq. intros H; injection H as <-.
    now destruct (manual_mode a).
  - intros H. apply update_car_frame in H as (_ & _ & _ & Ht). congruence.
Qed.

(** The control callbacks never move or turn the car, and the frame task
    never touches the speed, the steering angle or the mode: the two
    halves of the program write disjoint parts of the state. *)
Theorem callbacks_and_frames_write_apart :
  (forall c s s',
      (forall dt, c <> Tick dt) ->
      exec sin cos c s = Returns tt s' -> car s' = car s) /\
  (forall dt s s',
      exec sin cos (Tick dt) s = Returns tt s' ->
      speed s' = speed s /\ steering_angle s' = steering_angle s /\
      manual_mode s' = manual_mode s).
Proof.
  split.
  - intros c s s' Hc. destruct c as [d| |d| | |dt]; simpl.
    + rewrite accelerate_eq. intros H; injection H as <-.
      now destruct (manual_mode s).
    + intros H; now injection H as <-.
    + rewrite steer_eq. intros H; injection H as <-.
      now destruct (_ && _)%bool.
    + intros H; now injection H as <-.
    + rewrite toggle_mode_eq. intros H; injection H as <-.
      now destruct (manual_mode s).
    + now destruct (Hc dt).
  - intros dt s s' H. simpl in H.
    destruct (update_car_shape _ _ _ H) as (c & [|] & ->); now repeat split.
Qed.

(** The correction only ever holds 0, 1 or -1, along every run that starts
    with one of them. *)
Theorem correction_is_a_unit_step (cs : list command) (s s' : App) :
  (autonomous_steering_correction s = int: 0 \/
   autonomous_steering_correction s = int: 1 \/
   autonomous_steering_correction s = int: (-1)) ->
  run sin cos cs s = Returns tt s' ->
  autonomous_steering_correction s' = int: 0 \/
  autonomous_steering_correction s' = int: 1 \/
  autonomous_steering_correction s' = int: (-1).
Proof.
  apply (run_invariant
           (fun a => autonomous_steering_correction a = int: 0 \/
                     autonomous_steering_correction a = int: 1 \/
                     autonomous_steering_correction a = int: (-1))).
  intros c a a' Ha. destruct c as [d| |d| | |dt]; simpl.
  - rewrite accelerate_eq. intros H; injection H as <-.
    now destruct (manual_mode a).
  - intros H; injection H as <-. exact Ha.
  - rewrite steer_eq. intros H; injection H as <-.
    now destruct (_ && _)%bool.
  - intros H; injection H as <-. exact Ha.
  - rewrite toggle_mode_eq. intros H; injection H as <-.
    destruct (manual_mode a); [now left|exact Ha].
  - intros H. destruct (update_car_shape _ _ _ H) as (c & [|] & ->).
    + exact Ha.
    + unfold corrected, bounded. cbn [autonomous_steering_correction with_car
        with_correction with_stdout car pos_x].
      destruct (_ <? _); [right; now left|right; now right].
Qed.

(** In autonomous mode the speed and the steering angle are 0 and stay 0:
    [accelerate] and [steer] are gated off and the two stop callbacks write
    0.  This holds along every run from a state where it holds, the
    initial state among them. *)
Theorem autonomous_mode_is_inert (cs : list command) (s s' : App) :
  (manual_mode s = false ->
   speed s = int: 0 /\ steering_angle s = int: 0) ->
  run sin cos cs s = Returns tt s' ->
  manual_mode s' = false ->
  speed s' = int: 0 /\ steering_angle s' = int: 0.
Proof.
  apply (run_invariant
           (fun a => manual_mode a = false ->
                     speed a = int: 0 /\ steering_angle a = int: 0)).
  intros c a a' Ha. destruct c as [d| |d| | |dt]; cbn [exec].
  - rewrite accelerate_eq. intros H; injection H as <-.
    destruct (manual_mode a) eqn:Hm; [|intros _; exact (Ha eq_refl)].
    cbn [manual_mode with_speed]. rewrite Hm. discriminate.
  - intros H; injection H as <-.
    cbn [manual_mode speed steering_angle with_speed].
    intros Hm. now destruct (Ha Hm).
  - rewrite steer_eq. intros H; injection H as <-.
    destruct (manual_mode a) eqn:Hm;
      [|cbn [andb]; intros _; exact (Ha eq_refl)].
    destruct (_ && _)%bool;
      cbn [manual_mode with_steering_angle]; rewrite ?Hm; discriminate.
  - intros H; injection H as <-.
    cbn [manual_mode speed steering_angle with_steering_angle].
    intros Hm. now destruct (Ha Hm).
  - rewrite toggle_mode_eq. intros H; injection H as <-.
    destruct (manual_mode a);
      cbn [manual_mode speed steering_angle]; [now split|discriminate].
  - intros H. apply update_car_frame in H as (Hv & Hs & Hm & _).
    rewrite Hv, Hs, Hm. exact Ha.
Qed.

End Session_properties.

Section Texture_properties.

Variable sin cos : float -> pyval float.

(** When the plane has no texture the track check never fires: along
    every run from the initial state the correction stays 0 and the
    off-track line is never printed. *)
Theorem no_texture_no_correction (cs : list command) (s : App) :
  run sin cos cs (init None) = Returns tt s ->
  autonomous_steering_correction s = int: 0 /\
  ~ In "Car off the track! Correcting."%string (stdout s).
Proof.
  intros H.
  refine (proj2 (run_invariant sin cos
            (fun a => map_texture a = None /\
                      autonomous_steering_correction a = int: 0 /\
                      ~ In "Car off the track! Correcting."%string (stdout a))
            _ cs (init None) s _ H)).
  - intros c a a' (Ht & Hc & Ho). destruct c as [d| |d| | |dt]; cbn [exec].
    + rewrite accelerate_eq. intros E; injection E as <-.
      now destruct (manual_mode a).
    + intros E; injection E as <-. now repeat split.
    + rewrite steer_eq. intros E; injection E as <-.
      now destruct (_ && _)%bool.
    + intros E; injection E as <-. now repeat split.
    + rewrite toggle_mode_eq. intros E; injection E as <-.
      destruct (manual_mode a); cbn [map_texture stdout
        autonomous_steering_correction]; repeat split; trivial;
        intros Hin; apply in_app_or in Hin as [Hin|[Hin|[]]];
        try contradiction; discriminate Hin.
    + rewrite update_car_eq.
      destruct (update_car_move sin cos dt a) as [[] s1|e] eqn:Em;
        [|discriminate].
      destruct (update_car_move_frame sin cos _ _ _ Em) as [c ->].
      rewrite is_car_on_track_eq. cbn [map_texture with_car]. rewrite Ht.
      intros E; injection E as <-. now repeat split.
  - repeat split. intros [].
Qed.

(** Two presses of the mode key come back to the mode they started from,
    but not to the state: speed, steering angle and correction are all 0
    afterwards, whichever mode that was.  The car and the texture are as
    before. *)
Theorem double_toggle_zeroes_controls (s : App) :
  exists s',
    (toggle_mode ;; toggle_mode) s = Returns tt s' /\
    manual_mode s' = manual_mode s /\
    speed s' = int: 0 /\ steering_angle s' = int: 0 /\
    autonomous_steering_correction s' = int: 0 /\
    car s' = car s /\ map_texture s' = map_texture s.
Proof.
  unfold bind. rewrite toggle_mode_eq.
  destruct (manual_mode s) eqn:Hm; rewrite toggle_mode_eq;
    cbn [manual_mode]; eexists; (split; [reflexivity|]);
    cbn [manual_mode speed steering_angle autonomous_steering_correction
         car map_texture]; now repeat split.
Qed.

Lemma clamp_coord_idempotent (c : float) :
  clamp_coord (clamp_coord c) = clamp_coord c.
Proof.
  rewrite (BoundaryFacts.clamp_coord_cases c).
  destruct (c <? int: (-50)) eqn:E1; [vm_compute; reflexivity|].
  destruct (c >? int: 50) eqn:E2; [vm_compute; reflexivity|].
  now apply BoundaryFacts.clamp_coord_inside.
Qed.

(** [check_boundaries] is idempotent, and a position already inside the
    square is left exactly as it is. *)
Theorem check_boundaries_idempotent :
  (forall s, (check_boundaries ;; check_boundaries) s = check_boundaries s) /\
  (forall s,
      (pos_x (car s) <? int: (-50)) = false ->
      (pos_x (car s) >? int: 50) = false ->
      (pos_y (car s) <? int: (-50)) = false ->
      (pos_y (car s) >? int: 50) = false ->
      check_boundaries s = Returns tt s).
Proof.
  split.
  - intros s. unfold bind. rewrite !check_boundaries_eq.
    unfold bounded. cbn [car with_car pos_x pos_y pos_z hdg map_texture speed
      steering_angle manual_mode autonomous_steering_correction stdout].
    now rewrite !clamp_coord_idempotent.
  - intros s X1 X2 Y1 Y2. rewrite check_boundaries_eq. unfold bounded.
    rewrite !BoundaryFacts.clamp_coord_inside by assumption.
    now destruct s as [[x y z h] tex v a m c out].
Qed.

(** The track check never samples outside the texture: two textures of
    the same size that agree on every texel inside give the same answer,
    or the same exception, at every position. *)
Theorem track_check_reads_inside_only (s : App) (img img' : PNMImage) :
  map_texture s = Some img ->
  getXSize img' = getXSize img ->
  getYSize img' = getYSize img ->
  (forall u v,
      (0 <= u < getXSize img)%Z -> (0 <= v < getYSize img)%Z ->
      getRed img' u v = getRed img u v /\
      getGreen img' u v = getGreen img u v /\
      getBlue img' u v = getBlue img u v) ->
  match is_car_on_track s,
        is_car_on_track (with_map_texture (Some img') s) with
  | Returns b _, Returns b' _ => b = b'
  | Raises e, Raises e' => e = e'
  | _, _ => False
  end.
Proof.
  intros Ht Hx Hy Hin. rewrite !is_car_on_track_eq, Ht.
  cbn [map_texture with_map_texture car]. rewrite Hx, Hy.
  destruct (texel _ _) as [u|e]; [|reflexivity].
  destruct (texel _ _) as [v|e]; [|reflexivity].
  unfold in_texture. rewrite Hx, Hy.
  destruct ((0 <=? u) && (u <? getXSize img)
            && ((0 <=? v) && (v <? getYSize img)))%Z eqn:E; [|reflexivity].
  apply andb_prop in E as [E1 E2].
  apply andb_prop in E1 as [E1 E1'].
  apply andb_prop in E2 as [E2 E2'].
  destruct (Hin u v) as (Hr & Hg & Hb); [lia|lia|].
  unfold near_black. now rewrite Hr, Hg, Hb.
Qed.

(** A texture with no columns or no rows has no texel to be on: whenever
    the check answers, it answers off-track. *)
Theorem empty_texture_is_off_track (s s' : App) (img : PNMImage) (b : bool) :
  map_texture s = Some img ->
  (getXSize img <= 0 \/ getYSize img <= 0)%Z ->
  is_car_on_track s = Returns b s' ->
  b = false.
Proof.
  intros Ht Hs. rewrite is_car_on_track_eq, Ht.
  destruct (texel _ _) as [u|e]; [|discriminate].
  destruct (texel _ _) as [v|e]; [|discriminate].
  replace (in_texture img u v) with false; [intros H; now injection H|].
  symmetry. unfold in_texture.
  destruct ((0 <=? u) && (u <? getXSize img)
            && ((0 <=? v) && (v <? getYSize img)))%Z eqn:E; [|reflexivity].
  apply andb_prop in E as [E1 E2].
  apply andb_prop in E1 as [E1 E1'].
  apply andb_prop in E2 as [E2 E2']. lia.
Qed.

(** A NaN never enters the node.  A frame whose new heading is NaN is
    refused by [setH] with [AssertionError], before the sine is called; a
    frame whose new position has a NaN coordinate is refused by [setPos]
    with [AssertionError].  So after every frame that completes the
    heading and both coordinates are numbers, and each coordinate
    satisfies [-50 <= c <= 50] with no proviso. *)
Theorem nan_never_enters_the_node (dt : float) (s : App) :
  let heading :=
    if manual_mode s
    then hdg (car s) + steering_angle s * dt
    else hdg (car s) + autonomous_steering_correction s in
  let v := if manual_mode s then speed s else autonomous_speed in
  (is_nan heading = true -> update_car sin cos dt s = Raises AssertionError) /\
  (forall sn cs,
      is_nan heading = false ->
      sin (radians heading) = Val sn -> cos (radians heading) = Val cs ->
      is_nan (pos_x (car s) + - sn * v * dt) = true \/
      is_nan (pos_y (car s) + cs * v * dt) = true ->
      update_car sin cos dt s = Raises AssertionError) /\
  (forall s',
      update_car sin cos dt s = Returns tt s' ->
      is_nan (hdg (car s')) = false /\
      is_nan (pos_x (car s')) = false /\
      is_nan (pos_y (car s')) = false /\
      (int: (-50) <=? pos_x (car s')) = true /\
      (pos_x (car s') <=? int: 50) = true /\
      (int: (-50) <=? pos_y (car s')) = true /\
      (pos_y (car s') <=? int: 50) = true).
Proof.
  intros heading v. split; [|split].
  - intros Nh. rewrite update_car_eq, update_car_move_eq.
    fold heading. unfold integrated. now rewrite Nh.
  - intros sn cs Nh Hs Hc Hn. rewrite update_car_eq, update_car_move_eq.
    fold heading v. unfold integrated. rewrite Nh, Hs, Hc.
    destruct Hn as [-> | ->]; [reflexivity|].
    now rewrite orb_true_r.
  - intros s' H.
    destruct (update_car_move sin cos dt s) as [[] s1|e] eqn:Em;
      [|rewrite update_car_eq, Em in H; discriminate H].
    destruct (update_car_after_move sin cos _ _ _ _ Em H) as (Hh & Hx & Hy).
    rewrite update_car_move_eq in Em. fold heading v in Em.
    destruct (integrated_returns sin cos _ _ _ _ _ Em)
      as (sn & cs & _ & _ & Nh & Nx & Ny & _ & ->).
    unfold moved in Hh, Hx, Hy. cbn [car with_car pos_x pos_y hdg] in Hh, Hx, Hy.
    assert (Nx' : is_nan (to_f32 (pos_x (car s) + - sn * v * dt)) = false)
      by now rewrite RoundFacts.to_f32_nan.
    assert (Ny' : is_nan (to_f32 (pos_y (car s) + cs * v * dt)) = false)
      by now rewrite RoundFacts.to_f32_nan.
    rewrite Hh, Hx, Hy, RoundFacts.to_f32_nan,
      !BoundaryFacts.clamp_coord_nan.
    destruct (BoundaryFacts.clamp_coord_between _ Nx') as [X1 X2].
    destruct (BoundaryFacts.clamp_coord_between _ Ny') as [Y1 Y2].
    now repeat split.
Qed.

(** An exception of [math.sin] or [math.cos] ends the frame with that
    exception; the sine is called first, so when both would raise it is
    the sine's that is seen.  The one thing that comes before them is the
    node taking the heading: at a NaN heading the frame has already
    raised [AssertionError]. *)
Theorem frame_propagates_math_errors (dt : float) (s : App) (e : exn) :
  let heading :=
    if manual_mode s
    then hdg (car s) + steering_angle s * dt
    else hdg (car s) + autonomous_steering_correction s in
  (sin (radians heading) = Exc e ->
   update_car sin cos dt s =
     Raises (if is_nan heading then AssertionError else e)) /\
  (forall sn,
      sin (radians heading) = Val sn ->
      cos (radians heading) = Exc e ->
      update_car sin cos dt s =
        Raises (if is_nan heading then AssertionError else e)).
Proof.
  intros heading. split.
  - intros Hs. rewrite update_car_eq, update_car_move_eq.
    fold heading. unfold integrated.
    destruct (is_nan heading); [reflexivity|]. now rewrite Hs.
  - intros sn Hs Hc. rewrite update_car_eq, update_car_move_eq.
    fold heading. unfold integrated.
    destruct (is_nan heading); [reflexivity|]. now rewrite Hs, Hc.
Qed.

End Texture_properties.

(** ** Truncation near zero *)

Module TruncFacts.

Lemma int_1 : int: 1 = S754_finite false 4503599627370496 (-52).
Proof. vm_compute. reflexivity. Qed.

Lemma int_minus_1 : int: (-1) = S754_finite true 4503599627370496 (-52).
Proof. vm_compute. reflexivity. Qed.

Lemma digits2_pos_bound (m : positive) :
  (Zpos m < 2 ^ Zpos (digits2_pos m))%Z.
Proof.
  induction m as [p IH|p IH|]; cbn [digits2_pos];
    rewrite ?Pos2Z.inj_succ, ?Z.pow_succ_r by lia; lia.
Qed.

(** A canonical mantissa has at most 53 bits. *)
Lemma canonical_digits (m : positive) (e : Z) :
  canonical_mantissa prec emax m e = true ->
  (Zpos (digits2_pos m) <= 53)%Z.
Proof.
  unfold canonical_mantissa, fexp, prec. intros H.
  apply Z.eqb_eq in H. lia.
Qed.

(** A mantissa below [2^k] vanishes when shifted right by [k] or more. *)
Lemma shiftl_small (m : positive) (e k : Z) :
  (0 <= k)%Z -> (Zpos m < 2 ^ k)%Z -> (e <= - k)%Z ->
  Z.shiftl (Zpos m) e = 0%Z.
Proof.
  intros Hk Hm He.
  destruct (Z.eq_dec e 0) as [->|Hne].
  - assert (k = 0%Z) by lia. subst k. simpl in Hm. lia.
  - rewrite Z.shiftl_div_pow2 by lia.
    apply Z.div_small. split; [lia|].
    apply Z.lt_le_trans with (2 ^ k)%Z; [exact Hm|].
    apply Z.pow_le_mono_r; lia.
Qed.

End TruncFacts.

Section Motion_properties.

Variable sin cos : float -> pyval float.

(** [int] sends every canonical number strictly between -1 and 1 to 0,
    the negative ones included.  For the track check this means that a
    position whose scaled coordinate lies in (-1, 0), just outside the
    left or the bottom edge of the texture, is sampled at row or column
    0 as if it were inside. *)
Theorem int_of_a_fraction_is_zero (p : float) :
  valid_binary prec emax p = true ->
  (int: (-1) <? p) = true -> (p <? int: 1) = true ->
  py_int p = Val 0%Z.
Proof.
  rewrite TruncFacts.int_1, TruncFacts.int_minus_1.
  unfold ltb, SFltb.
  destruct p as [s|s| |s m e]; try reflexivity.
  - destruct s; discriminate.
  - discriminate.
  - intros Hv Hlo Hhi. cbn [valid_binary] in Hv. unfold bounded in Hv.
    apply andb_prop in Hv as [Hc _].
    pose proof (TruncFacts.canonical_digits m e Hc) as Hd.
    pose proof (TruncFacts.digits2_pos_bound m) as Hm.
    assert (Hm53 : (Zpos m < 2 ^ 53)%Z).
    { apply Z.lt_le_trans with (2 ^ Zpos (digits2_pos m))%Z; [exact Hm|].
      apply Z.pow_le_mono_r; lia. }
    assert (Hz : Z.shiftl (Zpos m) e = 0%Z).
    { assert (Hsame : (Zpos m < 4503599627370496)%Z ->
                      Z.shiftl (Zpos m) (-52) = 0%Z).
      { intros Hlt. apply (TruncFacts.shiftl_small m (-52) 52);
          [discriminate|exact Hlt|apply Z.le_refl]. }
      assert (Hbelow : (e < -52)%Z -> Z.shiftl (Zpos m) e = 0%Z).
      { intros Hlt. apply (TruncFacts.shiftl_small m e 53);
          [discriminate|exact Hm53|clear - Hlt; lia]. }
      destruct s.
      - (* negative: from -1 < p *)
        unfold SFcompare in Hlo.
        destruct (-52 ?= e)%Z eqn:Ce; try discriminate Hlo.
        + apply Z.compare_eq in Ce. subst e.
          rewrite Pos.compare_cont_spec in Hlo.
          destruct (4503599627370496 ?= m)%positive eqn:Cm;
            try discriminate Hlo.
          apply Pos.compare_gt_iff in Cm. apply Hsame.
          exact Cm.
        + apply Z.compare_gt_iff in Ce. apply Hbelow. clear - Ce. lia.
      - (* positive: from p < 1 *)
        unfold SFcompare in Hhi.
        destruct (e ?= -52)%Z eqn:Ce; try discriminate Hhi.
        + apply Z.compare_eq in Ce. subst e.
          rewrite Pos.compare_cont_spec in Hhi.
          destruct (m ?= 4503599627370496)%positive eqn:Cm;
            try discriminate Hhi.
          apply Pos.compare_lt_iff in Cm. apply Hsame.
          exact Cm.
        + apply Z.compare_lt_iff in Ce. apply Hbelow. exact Ce. }
    cbn [py_int]. unfold trunc. rewrite Hz. now destruct s.
Qed.

(** Products with a zero, and sums with one. *)
Lemma mul_zero_r (x : float) (b : bool) :
  is_finite x = true -> exists b', x * S754_zero b = S754_zero b'.
Proof.
  destruct x as [sx|sx| |sx m e]; intros H; try discriminate H;
    eexists; reflexivity.
Qed.

Lemma mul_zero_l (b : bool) (y : float) :
  is_finite y = true -> exists b', S754_zero b * y = S754_zero b'.
Proof.
  destruct y as [sy|sy| |sy m e]; intros H; try discriminate H;
    eexists; reflexivity.
Qed.

Lemma eqb_refl (x : float) : is_nan x = false -> (x =? x) = true.
Proof.
  unfold eqb, SFeqb.
  destruct x as [sx|sx| |sx m e]; intros H; try discriminate H.
  - reflexivity.
  - destruct sx; reflexivity.
  - cbn [SFcompare].
    destruct sx; rewrite Z.compare_refl, Pos.compare_cont_spec,
      Pos.compare_refl; reflexivity.
Qed.

(** Adding a zero gives the number back, or a zero for a zero. *)
Lemma add_zero_cases (x : float) (b : bool) :
  x + S754_zero b = x \/
  exists bx b', x = S754_zero bx /\ x + S754_zero b = S754_zero b'.
Proof.
  destruct x as [sx|sx| |sx m e]; try (left; reflexivity).
  right. exists sx. destruct sx, b; eexists; split; reflexivity.
Qed.

Lemma stored_after_zero (x : float) (b : bool) :
  is_nan x = false -> to_f32 x = x ->
  (to_f32 (x + S754_zero b) =? x) = true /\
  (forall sx m e, x = S754_finite sx m e -> to_f32 (x + S754_zero b) = x).
Proof.
  intros Nx Rx. destruct (add_zero_cases x b) as [->|(bx & b' & -> & ->)].
  - rewrite Rx. split; [now apply eqb_refl|reflexivity].
  - split; [reflexivity|discriminate].
Qed.

(** A car at speed 0 in manual mode does not move during a frame, though
    it turns when the steering angle is not 0 (the angle survives
    [stop_accelerate]).  It needs the sine, the cosine and [dt] to be
    finite, a zero times an infinity being NaN, and the new heading to be
    a number.  The node, which holds its position in single precision,
    then holds the new heading rounded to single precision and a position
    that compares equal to the one before, the very same number when
    that one is not a zero. *)
Theorem stationary_car_stays (dt : float) (s : App) (sn cs : float) (b : bool) :
  manual_mode s = true ->
  speed s = S754_zero b ->
  let heading := hdg (car s) + steering_angle s * dt in
  sin (radians heading) = Val sn ->
  cos (radians heading) = Val cs ->
  is_finite sn = true -> is_finite cs = true -> is_finite dt = true ->
  is_nan heading = false ->
  is_nan (pos_x (car s)) = false -> to_f32 (pos_x (car s)) = pos_x (car s) ->
  is_nan (pos_y (car s)) = false -> to_f32 (pos_y (car s)) = pos_y (car s) ->
  is_nan (pos_z (car s)) = false ->
  exists s1,
    update_car_move sin cos dt s = Returns tt s1 /\
    hdg (car s1) = to_f32 heading /\
    (pos_x (car s1) =? pos_x (car s)) = true /\
    (pos_y (car s1) =? pos_y (car s)) = true /\
    (forall sx m e, pos_x (car s) = S754_finite sx m e ->
                    pos_x (car s1) = pos_x (car s)) /\
    (forall sy m e, pos_y (car s) = S754_finite sy m e ->
                    pos_y (car s1) = pos_y (car s)).
Proof.
  intros Hm Hv heading Hs Hc Fsn Fcs Fdt Nh Nx Rx Ny Ry Nz.
  assert (Fneg : is_finite (- sn) = true) by (now destruct sn).
  destruct (mul_zero_r (- sn) b Fneg) as [b1 E1].
  destruct (mul_zero_l b1 dt Fdt) as [b2 E2].
  destruct (mul_zero_r cs b Fcs) as [b3 E3].
  destruct (mul_zero_l b3 dt Fdt) as [b4 E4].
  assert (Hdx : - sn * speed s * dt = S754_zero b2)
    by now rewrite Hv, E1, E2.
  assert (Hdy : cs * speed s * dt = S754_zero b4)
    by now rewrite Hv, E3, E4.
  destruct (stored_after_zero (pos_x (car s)) b2 Nx Rx) as [Xe Xi].
  destruct (stored_after_zero (pos_y (car s)) b4 Ny Ry) as [Ye Yi].
  eexists. split.
  { rewrite update_car_move_eq, Hm. cbv iota.
    apply (integrated_value sin cos _ _ _ _ sn cs); trivial.
    - rewrite Hdx. destruct (add_zero_cases (pos_x (car s)) b2)
        as [->|(bx & b' & _ & ->)]; trivial.
    - rewrite Hdy. destruct (add_zero_cases (pos_y (car s)) b4)
        as [->|(bx & b' & _ & ->)]; trivial. }
  unfold moved. cbn [car with_car pos_x pos_y hdg]. rewrite Hdx, Hdy.
  now repeat split.
Qed.

(** ** Key events *)

Lemma steer_left : int: (-1) * int: 15 = int: (-15).
Proof. vm_compute. reflexivity. Qed.

Lemma steer_right : int: 1 * int: 15 = int: 15.
Proof. vm_compute. reflexivity. Qed.

(** The callbacks a key event can trigger. *)
Lemma accepted_cases (event : string) (c : command) :
  accepted setup_controls event = Some c ->
  c = Accelerate (int: 1) \/ c = Accelerate (int: (-1)) \/
  c = Steer (int: (-1)) \/ c = Steer (int: 1) \/
  c = StopAccelerate \/ c = StopTurn \/ c = ToggleMode.
Proof.
  unfold setup_controls. cbn [accepted].
  repeat match goal with
         | |- context [String.eqb ?k event] => destruct (String.eqb k event)
         end;
    intros H; try discriminate H; injection H as <-; tauto.
Qed.

(** Driven from the keyboard the steering angle only ever holds 0, 15 or
    -15: along every sequence of key events, bound or not, and frames
    that starts with one of them. *)
Theorem key_steering_is_three_valued (inputs : list input) (s s' : App) :
  (steering_angle s = int: 0 \/ steering_angle s = int: 15 \/
   steering_angle s = int: (-15)) ->
  play sin cos inputs s = Returns tt s' ->
  steering_angle s' = int: 0 \/ steering_angle s' = int: 15 \/
  steering_angle s' = int: (-15).
Proof.
  revert s. induction inputs as [|i rest IH]; intros s Hs; cbn [play].
  - intros H; injection H as <-. exact Hs.
  - unfold bind. destruct (step sin cos i s) as [[] s1|e] eqn:E;
      [|discriminate].
    apply IH. destruct i as [event|dt]; cbn [step] in E.
    + unfold send in E.
      destruct (accepted setup_controls event) as [c|] eqn:Ec;
        [|injection E as <-; exact Hs].
      destruct (accepted_cases _ _ Ec)
        as [->|[->|[->|[->|[->|[->| ->]]]]]]; cbn [exec] in E.
      * rewrite accelerate_eq in E. injection E as <-.
        now destruct (manual_mode s).
      * rewrite accelerate_eq in E. injection E as <-.
        now destruct (manual_mode s).
      * rewrite steer_eq, steer_left in E. injection E as <-.
        destruct (_ && _)%bool; [right; now right|exact Hs].
      * rewrite steer_eq, steer_right in E. injection E as <-.
        destruct (_ && _)%bool; [right; now left|exact Hs].
      * injection E as <-. exact Hs.
      * injection E as <-. now left.
      * rewrite toggle_mode_eq in E. injection E as <-.
        destruct (manual_mode s); [now left|exact Hs].
    + apply update_car_frame in E as (_ & Ha & _). now rewrite Ha.
Qed.

End Motion_properties.

(** ** Instances of the further properties *)

Lemma texture_never_changes_witness :
  exists s',
    run sin_poly cos_poly [ToggleMode; Tick (int: 1); Accelerate (int: 3)]
      (init (Some (black_image 20 20))) = Returns tt s' /\
    map_texture s' = Some (black_image 20 20).
Proof.
  eexists. split; [vm_compute; reflexivity|].
  apply (texture_never_changes sin_poly cos_poly
           [ToggleMode; Tick (int: 1); Accelerate (int: 3)]
           (init (Some (black_image 20 20)))).
  vm_compute. reflexivity.
Defined.

Lemma callbacks_and_frames_write_apart_witness :
  exists s',
    exec sin_poly cos_poly ToggleMode
      (car_at None true (int: 3) (int: 4) (int: 30) (int: 12))
      = Returns tt s' /\
    car s' = car (car_at None true (int: 3) (int: 4) (int: 30) (int: 12)).
Proof.
  eexists. split; [reflexivity|].
  apply (proj1 (callbacks_and_frames_write_apart sin_poly cos_poly) ToggleMode);
    [discriminate|reflexivity].
Defined.

(** One frame off a white texture from the start position, [x = -3]. *)
Lemma correction_is_a_unit_step_witness :
  exists s',
    run sin_poly cos_poly [Tick (int: 0)] (init (Some (white_image 20 20)))
      = Returns tt s' /\
    autonomous_steering_correction s' = int: 1 /\
    (autonomous_steering_correction s' = int: 0 \/
     autonomous_steering_correction s' = int: 1 \/
     autonomous_steering_correction s' = int: (-1)).
Proof.
  eexists. split; [vm_compute; reflexivity|]. split; [reflexivity|].
  apply (correction_is_a_unit_step sin_poly cos_poly [Tick (int: 0)]
           (init (Some (white_image 20 20))));
    [left; reflexivity|vm_compute; reflexivity].
Defined.

Lemma autonomous_mode_is_inert_witness :
  exists s',
    run sin_poly cos_poly
      [Accelerate (int: 5); ToggleMode; Accelerate (int: 5); Steer (int: 1);
       Tick (int: 1)]
      (init None) = Returns tt s' /\
    speed s' = int: 0 /\ steering_angle s' = int: 0.
Proof.
  eexists. split; [vm_compute; reflexivity|].
  apply (autonomous_mode_is_inert sin_poly cos_poly
           [Accelerate (int: 5); ToggleMode; Accelerate (int: 5);
            Steer (int: 1); Tick (int: 1)]
           (init None));
    [discriminate|vm_compute; reflexivity|reflexivity].
Defined.

Lemma no_texture_no_correction_witness :
  exists s,
    run sin_poly cos_poly [Tick (int: 1); ToggleMode; Tick (int: 1)]
      (init None) = Returns tt s /\
    autonomous_steering_correction s = int: 0.
Proof.
  eexists. split; [vm_compute; reflexivity|].
  apply (no_texture_no_correction sin_poly cos_poly
           [Tick (int: 1); ToggleMode; Tick (int: 1)]).
  vm_compute. reflexivity.
Defined.

Lemma check_boundaries_idempotent_witness :
  check_boundaries (car_at None true (int: 50) (int: (-50)) (int: 0) (int: 0))
    = Returns tt (car_at None true (int: 50) (int: (-50)) (int: 0) (int: 0)).
Proof.
  apply (proj2 check_boundaries_idempotent); vm_compute; reflexivity.
Defined.

(** A black texture, and one that is black inside and white wherever a
    read outside would land. *)
Lemma track_check_reads_inside_only_witness :
  let img' :=
    {| getXSize := 20; getYSize := 20;
       getRed := fun u v =>
         if ((0 <=? u) && (u <? 20) && ((0 <=? v) && (v <? 20)))%Z
         then int: 0 else int: 255;
       getGreen := fun _ _ => int: 0;
       getBlue := fun _ _ => int: 0 |} in
  let s := car_at (Some (black_image 20 20)) true
             (int: 0) (int: 0) (int: 0) (int: 0) in
  match is_car_on_track s,
        is_car_on_track (with_map_texture (Some img') s) with
  | Returns b _, Returns b' _ => b = b'
  | Raises e, Raises e' => e = e'
  | _, _ => False
  end.
Proof.
  intros img' s.
  apply (track_check_reads_inside_only s (black_image 20 20) img');
    try reflexivity.
  intros u v Hu Hv. repeat split. cbn [getRed img' getXSize getYSize
    black_image plain_image] in *.
  replace ((0 <=? u) && (u <? 20) && ((0 <=? v) && (v <? 20)))%Z with true;
    [reflexivity|].
  symmetry. repeat (apply andb_true_intro; split);
    first [apply Z.leb_le | apply Z.ltb_lt]; lia.
Defined.

Lemma empty_texture_is_off_track_witness :
  let s := car_at (Some (black_image 0 20)) true
             (int: 0) (int: 0) (int: 0) (int: 0) in
  is_car_on_track s = Returns false s.
Proof.
  intros s. destruct (is_car_on_track s) as [b s'|e] eqn:E;
    [|vm_compute in E; discriminate E].
  rewrite (empty_texture_is_off_track s s' (black_image 0 20) b
             eq_refl (or_introl (Z.le_refl 0)) E).
  vm_compute in E. injection E as _ <-. reflexivity.
Defined.

(** An elapsed time that is not a number. *)
Lemma nan_never_enters_the_node_witness :
  update_car sin_poly cos_poly S754_nan (init None) = Raises AssertionError.
Proof.
  apply (proj1 (nan_never_enters_the_node sin_poly cos_poly S754_nan
                  (init None))).
  vm_compute. reflexivity.
Defined.

(** An infinite heading: [math.sin] raises. *)
Lemma frame_propagates_math_errors_witness :
  update_car sin_poly cos_poly (int: 1)
    (car_at None true (int: 0) (int: 0) (S754_infinity false) (int: 0))
    = Raises ValueError.
Proof.
  exact (proj1 (frame_propagates_math_errors sin_poly cos_poly (int: 1)
                  (car_at None true (int: 0) (int: 0) (S754_infinity false)
                     (int: 0))
                  ValueError) eq_refl).
Defined.

(** [int(-0.5)]. *)
Lemma int_of_a_fraction_is_zero_witness :
  py_int (S754_finite true 4503599627370496 (-53)) = Val 0%Z.
Proof.
  apply int_of_a_fraction_is_zero; vm_compute; reflexivity.
Defined.

Lemma stationary_car_stays_witness :
  exists s1,
    update_car_move sin_poly cos_poly (int: 2)
      (car_at None true (int: 3) (int: 4) (int: 0) (int: 0)) = Returns tt s1 /\
    pos_x (car s1) = int: 3 /\ pos_y (car s1) = int: 4.
Proof.
  destruct (stationary_car_stays sin_poly cos_poly (int: 2)
              (car_at None true (int: 3) (int: 4) (int: 0) (int: 0))
              (int: 0) (int: 1) false
              eq_refl eq_refl eq_refl eq_refl eq_refl eq_refl eq_refl
              eq_refl eq_refl eq_refl eq_refl eq_refl eq_refl)
    as (s1 & H & _ & _ & _ & Hx & Hy).
  exists s1. split; [exact H|]. split.
  - exact (Hx false 6755399441055744%positive (-51)%Z eq_refl).
  - exact (Hy false 4503599627370496%positive (-50)%Z eq_refl).
Defined.

(** Accelerate, steer left, a frame, an unbound key, release. *)
Lemma key_steering_is_three_valued_witness :
  exists s',
    play sin_poly cos_poly
      [Key "w"; Key "a"; Frame (int: 1); Key "x"; Key "a-up"]%string
      (init None) = Returns tt s' /\
    (steering_angle s' = int: 0 \/ steering_angle s' = int: 15 \/
     steering_angle s' = int: (-15)).
Proof.
  eexists. split; [vm_compute; reflexivity|].
  apply (key_steering_is_three_valued sin_poly cos_poly
           [Key "w"; Key "a"; Frame (int: 1); Key "x"; Key "a-up"]%string
           (init None));
    [left; reflexivity|vm_compute; reflexivity].
Defined.

Lemma update_car_completes_witness :
  exists s',
    update_car sin_poly cos_poly (int: 1)
      (car_at (Some (black_image 20 20)) true
         (int: 0) (int: 0) (int: 0) (int: 10)) = Returns tt s'.
Proof.
  refine (update_car_completes sin_poly cos_poly (int: 1)
            (car_at (Some (black_image 20 20)) true
               (int: 0) (int: 0) (int: 0) (int: 10)) _ _ _).
  - vm_compute. reflexivity.
  - intros img H. injection H as <-. split; vm_compute; reflexivity.
Defined.

(** The answer of the track check is a function of the texture and of
    the [x] and [y] of the car: heading, height, speed, steering angle,
    mode, correction and console play no part in it. *)
Theorem track_check_depends_on_position_only (s t : App) :
  map_texture s = map_texture t ->
  pos_x (car s) = pos_x (car t) ->
  pos_y (car s) = pos_y (car t) ->
  match is_car_on_track s, is_car_on_track t with
  | Returns b _, Returns b' _ => b = b'
  | Raises e, Raises e' => e = e'
  | _, _ => False
  end.
Proof.
  intros Ht Hx Hy. rewrite !is_car_on_track_eq, Ht, Hx, Hy.
  destruct (map_texture t) as [img|]; [|reflexivity].
  destruct (texel _ _) as [u|e]; [|reflexivity].
  destruct (texel _ _) as [v|e]; reflexivity.
Qed.

(** The same spot on a white texture, parked in manual mode and turning
    at speed in autonomous mode. *)
Lemma track_check_depends_on_position_only_witness :
  match
    is_car_on_track
      (car_at (Some (white_image 20 20)) true
         (int: 1) (int: 2) (int: 0) (int: 0)),
    is_car_on_track
      (with_correction (int: 1)
         (car_at (Some (white_image 20 20)) false
            (int: 1) (int: 2) (int: 90) (int: 10)))
  with
  | Returns b _, Returns b' _ => b = b'
  | Raises e, Raises e' => e = e'
  | _, _ => False
  end.
Proof.
  apply track_check_depends_on_position_only; reflexivity.
Defined.
